(** * Aegis dashboard: the client synchronisation core

    A shallow embedding of [frontend/src/api.js] and of the state logic of
    [frontend/src/App.jsx]: the backend boundary with its try/catch
    fallbacks, the handlers of the [App] component as an event-driven
    transition system (every [await] is a suspension point at which other
    events may run), the auto-scan polling effect, the display-name helpers
    and the CSV report generator. *)

From Stdlib Require Import ZArith List String Ascii Bool Lia DecimalString.
Import ListNotations.

Local Open Scope string_scope.
Local Open Scope Z_scope.
Set Warnings "-register-all".

(* ===================================================================== *)
(** ** JavaScript values *)
(* ===================================================================== *)

Module Js.

(** Values as they come out of [response.json()], plus [undefined].
    Numbers are the integers; a string is its sequence of code units, each
    below 256 (one [ascii] per code unit). Objects are association lists
    read at the first binding of a key. *)
Inductive jsval : Type :=
| VUndefined
| VNull
| VBool (b : bool)
| VNum (n : Z)
| VStr (s : string)
| VArr (items : list jsval)
| VObj (fields : list (string * jsval)).

(** ToBoolean: what [!v], [v && ...], [v || ...] and [v ? a : b] test. *)
Definition truthy (v : jsval) : bool :=
  match v with
  | VUndefined | VNull => false
  | VBool b => b
  | VNum n => negb (n =? 0)
  | VStr s => negb (s =? "")%string
  | VArr _ | VObj _ => true
  end.

(** [a || b] *)
Definition js_or (a b : jsval) : jsval := if truthy a then a else b.

(** [typeof v] *)
Definition typeof (v : jsval) : string :=
  match v with
  | VUndefined => "undefined"
  | VNull | VArr _ | VObj _ => "object"
  | VBool _ => "boolean"
  | VNum _ => "number"
  | VStr _ => "string"
  end.

(** [a === b] on primitives. Arrays and objects compare by identity, which
    the embedding does not track: every use below has a string on one
    side, where identity and this definition agree. *)
Definition strict_eq (a b : jsval) : bool :=
  match a, b with
  | VUndefined, VUndefined => true
  | VNull, VNull => true
  | VBool x, VBool y => Bool.eqb x y
  | VNum x, VNum y => x =? y
  | VStr x, VStr y => (x =? y)%string
  | _, _ => false
  end.

Fixpoint lookup (k : string) (fields : list (string * jsval)) : jsval :=
  match fields with
  | [] => VUndefined
  | (k', v) :: rest => if (k =? k')%string then v else lookup k rest
  end.

(** Exceptions the modelled code can meet. *)
Inductive exn : Type :=
| NetworkError   (* fetch() rejected: backend unreachable *)
| SyntaxError    (* response.json() rejected: body is not JSON *)
| TypeError.     (* property read on undefined or null *)

(** A computation either yields a value or throws. *)
Inductive outcome (A : Type) : Type :=
| Value (a : A)
| Thrown (e : exn).
Arguments Value {A} a.
Arguments Thrown {A} e.

Definition bind {A B} (c : outcome A) (k : A -> outcome B) : outcome B :=
  match c with
  | Value a => k a
  | Thrown e => Thrown e
  end.

(** [try { c } catch (error) { h error }] *)
Definition try_catch {A} (c : outcome A) (h : exn -> outcome A) : outcome A :=
  match c with
  | Value a => Value a
  | Thrown e => h e
  end.

(** [v.k]: throws on [undefined] and [null]; absent properties, and the
    properties read below on arrays and primitives, are [undefined]. *)
Definition prop (v : jsval) (k : string) : outcome jsval :=
  match v with
  | VUndefined | VNull => Thrown TypeError
  | VObj fields => Value (lookup k fields)
  | _ => Value VUndefined
  end.

(** The decimal form of an integer. Numbers of the payload are integers
    here; fractions, and integers too large for a double to hold exactly,
    are outside the model. *)
Definition dec (n : Z) : string := NilZero.string_of_int (Z.to_int n).

(** ToString, as applied by template literals and [alert]. *)
Fixpoint to_string (v : jsval) : string :=
  match v with
  | VUndefined => "undefined"
  | VNull => "null"
  | VBool b => if b then "true" else "false"
  | VNum n => dec n
  | VStr s => s
  | VArr items =>
      (fix join (l : list jsval) : string :=
         match l with
         | [] => ""
         | x :: rest =>
             let sx := match x with
                       | VUndefined | VNull => ""
                       | _ => to_string x
                       end in
             match rest with
             | [] => sx
             | _ :: _ => sx ++ "," ++ join rest
             end
         end) items
  | VObj _ => "[object Object]"
  end.

(** *** Strings *)

(** White space and line terminators among the code units below 256:
    TAB, LF, VT, FF, CR, SP and NBSP. *)
Definition is_space (c : ascii) : bool :=
  let n := nat_of_ascii c in
  ((9 <=? n) && (n <=? 13) || (n =? 32) || (n =? 160))%nat.

Fixpoint drop_spaces (l : list ascii) : list ascii :=
  match l with
  | [] => []
  | c :: rest => if is_space c then drop_spaces rest else l
  end.

(** [s.trim()] *)
Definition trim (s : string) : string :=
  string_of_list_ascii
    (rev (drop_spaces (rev (drop_spaces (list_ascii_of_string s))))).

Definition is_digit (c : ascii) : bool :=
  let n := nat_of_ascii c in ((48 <=? n) && (n <=? 57))%nat.

(** [/^\d+$/.test(s)]: one or more characters, all of them in 0-9. *)
Definition all_digits (s : string) : bool :=
  match list_ascii_of_string s with
  | [] => false
  | l => forallb is_digit l
  end.

End Js.
Export Js.

Notation "x <- c ;; k" := (bind c (fun x => k))
  (at level 61, c at next level, right associativity).
Notation "'try' c 'catch' h" := (try_catch c h)
  (at level 62, c at level 61, h at level 61).

(* ===================================================================== *)
(** ** Data model *)
(* ===================================================================== *)

(** A device object, with the fields the handlers and the report read.
    [mac], the key, is a string and [risk_score], the one field compared
    numerically, is a number in every payload; the remaining fields are
    whatever the backend sent ([null] and absent fields included). *)
Record device : Type := mkDevice {
  mac : string;
  ip : jsval;
  name : jsval;
  hostname : jsval;
  vendor : jsval;
  nickname : jsval;
  os_type : jsval;
  device_type : jsval;
  risk_score : Z;
  open_ports : jsval;
  latency : jsval;
  isBlocked : jsval;
  is_blocked : jsval
}.

(** [{ ...d, isBlocked: v }] *)
Definition with_isBlocked (d : device) (v : jsval) : device :=
  mkDevice (mac d) (ip d) (name d) (hostname d) (vendor d) (nickname d)
    (os_type d) (device_type d) (risk_score d) (open_ports d) (latency d)
    v (is_blocked d).

Record logentry : Type := mkLog {
  log_id : Z;
  log_time : string;
  log_event : string;
  log_type : string
}.

(* ===================================================================== *)
(** ** api.js: the backend boundary *)
(* ===================================================================== *)

Module Api.

(** The requests the client can put on the wire. *)
Inductive request : Type :=
| GetDevices                              (* GET  /api/devices *)
| GetLogs                                 (* GET  /api/logs *)
| PostScan                                (* POST /api/scan *)
| GetScanStatus                           (* GET  /api/scan/status *)
| PostBlock (deviceId : jsval)            (* POST /api/device/<id>/block *)
| PostNickname (deviceId nickname : jsval)(* POST /api/device/<id>/nickname *)
| PostPanic                               (* POST /api/panic *)
| PostPanicUnlock.                        (* POST /api/panic/unlock *)

(** What comes back for one request: nothing (the backend is unreachable)
    or a response whose body parses as JSON or does not. A body that
    parses has the shape [R] that the endpoint's contract gives it: a
    device list, a log list, or any JSON value where the caller inspects
    the result itself. The HTTP status is never looked at. *)
Inductive reply (R : Type) : Type :=
| Unreachable
| Response (body : option R).
Arguments Unreachable {R}.
Arguments Response {R} body.

(** [await fetch(url, ...)] *)
Definition fetch {R} (net : reply R) : outcome (option R) :=
  match net with
  | Unreachable => Thrown NetworkError
  | Response body => Value body
  end.

(** [await response.json()] *)
Definition json {R} (response : option R) : outcome R :=
  match response with
  | Some v => Value v
  | None => Thrown SyntaxError
  end.

(** An async API function either settles without touching the network or
    puts one request on the wire and runs the rest of its body, try/catch
    included, on the reply. [console.error] only writes to the developer
    console and is left out. *)
Inductive call (R A : Type) : Type :=
| Return (a : outcome A)
| Fetch (req : request) (k : reply R -> outcome A).
Arguments Return {R A} a.
Arguments Fetch {R A} req k.

Definition requests_of {R A} (c : call R A) : list request :=
  match c with
  | Return _ => []
  | Fetch req _ => [req]
  end.

(** The value the call settles with, given the reply to its request. *)
Definition settle {R A} (c : call R A) (net : reply R) : outcome A :=
  match c with
  | Return a => a
  | Fetch _ k => k net
  end.

(** [fetchDevices] and [fetchLogs] return whatever [response.json()]
    yields and the literal [[]] from the catch. They are stated once for
    every representation [J] of parsed bodies: at [jsval], any JSON value
    can come back; the component below reads them at the list types, the
    bodies that keep to the contract. *)
Class Json (J : Type) : Type := empty_array : J.

#[export] Instance json_value : Json jsval := VArr [].
#[export] Instance json_list (A : Type) : Json (list A) := [].

Definition fetchDevices {J} `{Json J} : call J J :=
  Fetch GetDevices (fun net =>
    try (response <- fetch net ;; json response)
    catch (fun _ => Value empty_array)).

Definition fetchLogs {J} `{Json J} : call J J :=
  Fetch GetLogs (fun net =>
    try (response <- fetch net ;; json response)
    catch (fun _ => Value empty_array)).

Definition triggerScan : call jsval jsval :=
  Fetch PostScan (fun net =>
    try (response <- fetch net ;; json response)
    catch (fun _ => Value (VObj [("status", VStr "error")]))).

Definition getScanStatus : call jsval jsval :=
  Fetch GetScanStatus (fun net =>
    try (response <- fetch net ;; json response)
    catch (fun _ => Value (VObj [("is_scanning", VBool false)]))).

Definition toggleDeviceBlock (deviceId : jsval) : call jsval jsval :=
  if negb (truthy deviceId) then Return (Value VUndefined)
  else
    Fetch (PostBlock deviceId) (fun net =>
      try (response <- fetch net ;; json response)
      catch (fun _ => Value VUndefined)).

Definition updateDeviceNickname (deviceId nickname : jsval) : call jsval jsval :=
  if negb (truthy deviceId) then Return (Value VUndefined)
  else
    Fetch (PostNickname deviceId nickname) (fun net =>
      try (response <- fetch net ;; json response)
      catch (fun _ => Value (VObj [("status", VStr "error")]))).

Definition triggerPanicMode : call jsval jsval :=
  Fetch PostPanic (fun net =>
    try (response <- fetch net ;; json response)
    catch (fun _ => Value (VArr []))).

Definition triggerUnlockPanicControl : call jsval jsval :=
  Fetch PostPanicUnlock (fun net =>
    try (response <- fetch net ;; json response)
    catch (fun _ => Value (VObj [("status", VStr "error")]))).

(** The API functions catch everything: their promises always fulfil.
    [settled c net] is the value [await c] evaluates to. *)
Definition settled {R A} (dflt : A) (c : call R A) (net : reply R) : A :=
  match settle c net with
  | Value a => a
  | Thrown _ => dflt
  end.

End Api.
Export Api.

(* ===================================================================== *)
(** ** App.jsx: component state and handlers *)
(* ===================================================================== *)

Module App.

(** What a handler does to the outside world, in order. *)
Inductive effect : Type :=
| Sent (req : request)     (* a request went out *)
| SetDevices               (* setDevices(...) was called *)
| SetLogs                  (* setLogs(...) was called *)
| Alert (msg : string).    (* alert(msg) *)

(** An async function suspended at one of its [await]s. *)
Inductive task : Type :=
| ScanAwaitTrigger                 (* handleScan at [await triggerScan()] *)
| PollAwaitStatus (pollInterval : nat)
                                   (* scan poll callback at [await getScanStatus()] *)
| PollAwaitLoad                    (* scan poll callback at [await loadData()] *)
| LoadAwait                        (* a [loadData()] that nobody awaits *)
| ToggleAwaitResult (mac : jsval)  (* handleToggleBlock at [await toggleDeviceBlock(mac)] *)
| ToggleAwaitLogs                  (* handleToggleBlock at [await fetchLogs()] *)
| PanicAwaitResult                 (* handlePanic at [await triggerPanicMode()] *)
| PanicAwaitLogs                   (* handlePanic at [await fetchLogs()] *)
| UnlockAwaitResult                (* handleUnlockPanic at [await triggerUnlockPanicControl()] *)
| UnlockAwaitLogs.                 (* handleUnlockPanic at [await fetchLogs()] *)

(** The closure of the auto-scan polling effect: the [devices] of the
    render in which the effect ran, and its local [lastDeviceCount]. *)
Record poller : Type := mkPoller {
  closure_devices : list device;
  lastDeviceCount : nat
}.

(** The [useState] cells that the handlers touch, and the run-time state
    around them: suspended async functions, live timers, the effects so
    far. [selectedDevice], [activeTab], [theme] and [nicknameDraft] drive
    rendering only and are left out. *)
Record state : Type := mkState {
  devices : list device;
  logs : list logentry;
  loading : bool;
  processingId : jsval;
  panicProcessing : bool;
  unlockProcessing : bool;
  autoScanEnabled : bool;
  autoScanPoll : option poller;  (* the live 15 s polling effect, if any *)
  pending : list task;
  intervals : list nat;          (* live [setInterval(..., 1000)] timers *)
  timeouts : list nat;           (* armed [setTimeout(..., 120000)] timers,
                                    each named by the interval it clears *)
  next_timer : nat;
  trace : list effect
}.

(** The component as [useState] initialises it. *)
Definition initial : state :=
  mkState [] [] false VNull false false false None [] [] [] 0%nat [].

Definition setDevices (v : list device) (st : state) : state :=
  mkState v (logs st) (loading st) (processingId st) (panicProcessing st)
    (unlockProcessing st) (autoScanEnabled st) (autoScanPoll st) (pending st)
    (intervals st) (timeouts st) (next_timer st) (trace st ++ [SetDevices]).

Definition setLogs (v : list logentry) (st : state) : state :=
  mkState (devices st) v (loading st) (processingId st) (panicProcessing st)
    (unlockProcessing st) (autoScanEnabled st) (autoScanPoll st) (pending st)
    (intervals st) (timeouts st) (next_timer st) (trace st ++ [SetLogs]).

Definition setLoading (v : bool) (st : state) : state :=
  mkState (devices st) (logs st) v (processingId st) (panicProcessing st)
    (unlockProcessing st) (autoScanEnabled st) (autoScanPoll st) (pending st)
    (intervals st) (timeouts st) (next_timer st) (trace st).

Definition setProcessingId (v : jsval) (st : state) : state :=
  mkState (devices st) (logs st) (loading st) v (panicProcessing st)
    (unlockProcessing st) (autoScanEnabled st) (autoScanPoll st) (pending st)
    (intervals st) (timeouts st) (next_timer st) (trace st).

Definition setPanicProcessing (v : bool) (st : state) : state :=
  mkState (devices st) (logs st) (loading st) (processingId st) v
    (unlockProcessing st) (autoScanEnabled st) (autoScanPoll st) (pending st)
    (intervals st) (timeouts st) (next_timer st) (trace st).

Definition setUnlockProcessing (v : bool) (st : state) : state :=
  mkState (devices st) (logs st) (loading st) (processingId st)
    (panicProcessing st) v (autoScanEnabled st) (autoScanPoll st) (pending st)
    (intervals st) (timeouts st) (next_timer st) (trace st).

Definition with_autoScan (enabled : bool) (p : option poller) (st : state) : state :=
  mkState (devices st) (logs st) (loading st) (processingId st)
    (panicProcessing st) (unlockProcessing st) enabled p (pending st)
    (intervals st) (timeouts st) (next_timer st) (trace st).

Definition with_pending (v : list task) (st : state) : state :=
  mkState (devices st) (logs st) (loading st) (processingId st)
    (panicProcessing st) (unlockProcessing st) (autoScanEnabled st)
    (autoScanPoll st) v (intervals st) (timeouts st) (next_timer st) (trace st).

Definition with_timers (ivs tos : list nat) (next : nat) (st : state) : state :=
  mkState (devices st) (logs st) (loading st) (processingId st)
    (panicProcessing st) (unlockProcessing st) (autoScanEnabled st)
    (autoScanPoll st) (pending st) ivs tos next (trace st).

Definition emit (es : list effect) (st : state) : state :=
  mkState (devices st) (logs st) (loading st) (processingId st)
    (panicProcessing st) (unlockProcessing st) (autoScanEnabled st)
    (autoScanPoll st) (pending st) (intervals st) (timeouts st)
    (next_timer st) (trace st ++ es).

(** The async function suspends at an [await]. *)
Definition suspend (t : task) (st : state) : state :=
  with_pending (pending st ++ [t]) st.

Definition remove_nth {A} (i : nat) (l : list A) : list A :=
  firstn i l ++ skipn (S i) l.

(** The suspended function [i] is resumed. *)
Definition resume (i : nat) (st : state) : state :=
  with_pending (remove_nth i (pending st)) st.

Fixpoint remove_first (n : nat) (l : list nat) : list nat :=
  match l with
  | [] => []
  | m :: rest => if (n =? m)%nat then rest else m :: remove_first n rest
  end.

Definition mem (n : nat) (l : list nat) : bool := existsb (Nat.eqb n) l.

(** [clearInterval(pollInterval)] *)
Definition clearInterval (pollInterval : nat) (st : state) : state :=
  with_timers (remove_first pollInterval (intervals st)) (timeouts st)
    (next_timer st) st.

(** *** loadData *)

(** [loadData()] up to its [await Promise.all([fetchDevices(), fetchLogs()])]:
    both requests go out. *)
Definition loadData (st : state) : state :=
  emit (map Sent (requests_of (fetchDevices (J := list device))
                  ++ requests_of (fetchLogs (J := list logentry)))) st.

(** The rest of [loadData] once both promises have settled. An array is
    truthy, so [devicesData || []] is [devicesData]. *)
Definition loadData_settled (nd : reply (list device))
    (nl : reply (list logentry)) (st : state) : state :=
  let devicesData := settled [] fetchDevices nd in
  let logsData := settled [] fetchLogs nl in
  setLogs logsData (setDevices devicesData st).

(** *** handleScan *)

(** [handleScan] up to [await triggerScan()]. *)
Definition handleScan (st : state) : state :=
  let st := setLoading true st in
  suspend ScanAwaitTrigger (emit (map Sent (requests_of triggerScan)) st).

(** [handleScan] after [await triggerScan()]: the 1 s poll interval and the
    120 s timeout are set; the value of [triggerScan()] is not looked at. *)
Definition handleScan_polling (r : outcome jsval) (st : state) : state :=
  match r with
  | Thrown _ => st
  | Value _ =>
      let pollInterval := next_timer st in
      with_timers (intervals st ++ [pollInterval])
        (timeouts st ++ [pollInterval]) (S pollInterval) st
  end.

(** The interval callback up to [await getScanStatus()]. *)
Definition scanPoll_tick (pollInterval : nat) (st : state) : state :=
  suspend (PollAwaitStatus pollInterval)
    (emit (map Sent (requests_of getScanStatus)) st).

(** The interval callback after [await getScanStatus()], up to
    [await loadData()]. A throw ([status] is [null]) rejects the callback's
    promise, which nobody handles. *)
Definition scanPoll_status (pollInterval : nat) (r : outcome jsval)
    (st : state) : state :=
  match (status <- r ;; is_scanning <- prop status "is_scanning" ;;
         Value (truthy is_scanning)) with
  | Value false =>
      let st := clearInterval pollInterval st in
      suspend PollAwaitLoad (loadData st)
  | Value true => st
  | Thrown _ => st
  end.

(** The interval callback after [await loadData()]. *)
Definition scanPoll_loaded (nd : reply (list device))
    (nl : reply (list logentry)) (st : state) : state :=
  setLoading false (loadData_settled nd nl st).

(** The [setTimeout(..., 120000)] callback. *)
Definition scanTimeout (pollInterval : nat) (st : state) : state :=
  let st := clearInterval pollInterval st in
  let st := setLoading false st in
  suspend LoadAwait (loadData st).

(** *** handlePanic and handleUnlockPanic *)

(** [res && res.status === "success"] *)
Definition is_success (res : jsval) : outcome bool :=
  if truthy res then
    status <- prop res "status" ;; Value (strict_eq status (VStr "success"))
  else Value false.

(** [res.message || fallback], as [alert] shows it. *)
Definition message_or (res : jsval) (fallback : string) : outcome string :=
  message <- prop res "message" ;;
  Value (to_string (js_or message (VStr fallback))).

(** The body of the [try] block after [await trigger...()], up to the next
    [await]: the text alerted, and whether the success branch was taken. *)
Definition bulk_try (r : outcome jsval) (done failed : string)
  : outcome (bool * string) :=
  res <- r ;;
  ok <- is_success res ;;
  if ok then (msg <- message_or res done ;; Value (true, msg))
  else (msg <- message_or res failed ;; Value (false, msg)).

Definition handlePanic (st : state) : state :=
  if panicProcessing st then st
  else
    let st := setPanicProcessing true st in
    suspend PanicAwaitResult (emit (map Sent (requests_of triggerPanicMode)) st).

Definition handlePanic_result (r : outcome jsval) (st : state) : state :=
  match bulk_try r "Panic mode activated" "Failed to activate panic mode" with
  | Value (true, msg) =>
      suspend PanicAwaitLogs
        (emit (map Sent (requests_of (fetchLogs (J := list logentry)))) (emit [Alert msg] st))
  | Value (false, msg) => setPanicProcessing false (emit [Alert msg] st)
  | Thrown _ =>
      setPanicProcessing false (emit [Alert "Error triggering panic mode"] st)
  end.

Definition handlePanic_logs (r : outcome (list logentry)) (st : state) : state :=
  match r with
  | Value newLogs => setPanicProcessing false (setLogs newLogs st)
  | Thrown _ =>
      setPanicProcessing false (emit [Alert "Error triggering panic mode"] st)
  end.

Definition handleUnlockPanic (st : state) : state :=
  if unlockProcessing st then st
  else
    let st := setUnlockProcessing true st in
    suspend UnlockAwaitResult
      (emit (map Sent (requests_of triggerUnlockPanicControl)) st).

Definition handleUnlockPanic_result (r : outcome jsval) (st : state) : state :=
  match bulk_try r "Panic unlock activated" "Failed to unlock panic mode" with
  | Value (true, msg) =>
      suspend UnlockAwaitLogs
        (emit (map Sent (requests_of (fetchLogs (J := list logentry)))) (emit [Alert msg] st))
  | Value (false, msg) => setUnlockProcessing false (emit [Alert msg] st)
  | Thrown _ =>
      setUnlockProcessing false (emit [Alert "Error unlocking panic mode"] st)
  end.

Definition handleUnlockPanic_logs (r : outcome (list logentry)) (st : state)
  : state :=
  match r with
  | Value newLogs => setUnlockProcessing false (setLogs newLogs st)
  | Thrown _ =>
      setUnlockProcessing false (emit [Alert "Error unlocking panic mode"] st)
  end.

(** *** handleToggleBlock *)

(** The updater passed to [setDevices]:
    [device.mac === mac ? { ...device, isBlocked: v } : device]. *)
Definition patch_blocked (mac' v : jsval) (d : device) : device :=
  if strict_eq (VStr (mac d)) mac' then with_isBlocked d v else d.

(** [handleToggleBlock] after [await toggleDeviceBlock(mac)], up to
    [await fetchLogs()] or to its end. *)
Definition handleToggleBlock_result (mac' : jsval) (r : outcome jsval)
    (st : state) : state :=
  match (result <- r ;;
         ok <- is_success result ;;
         if ok then (v <- prop result "isBlocked" ;; Value (Some v))
         else Value None) with
  | Value (Some v) =>
      let st := setDevices (map (patch_blocked mac' v) (devices st)) st in
      suspend ToggleAwaitLogs (emit (map Sent (requests_of (fetchLogs (J := list logentry)))) st)
  | Value None => setProcessingId VNull st
  | Thrown _ => st
  end.

(** [handleToggleBlock] up to [await toggleDeviceBlock(mac)]; when the API
    function returns without a request, the handler goes on in the same
    turn. *)
Definition handleToggleBlock (mac' : jsval) (st : state) : state :=
  let st := setProcessingId mac' st in
  match toggleDeviceBlock mac' with
  | Return r => handleToggleBlock_result mac' r st
  | Fetch req _ => suspend (ToggleAwaitResult mac') (emit [Sent req] st)
  end.

(** [handleToggleBlock] after [await fetchLogs()]. *)
Definition handleToggleBlock_logs (r : outcome (list logentry)) (st : state)
  : state :=
  match r with
  | Value newLogs => setProcessingId VNull (setLogs newLogs st)
  | Thrown _ => st
  end.

(** *** The event loop *)

Inductive event : Type :=
(* the component mounts: of its mount effect, the [loadData()] call *)
| Mount
(* the user, through the buttons of the header *)
| ClickScan
| ClickPanic
| ClickUnlockPanic
(* a handler is called *)
| HandleScan
| HandlePanic
| HandleUnlockPanic
| HandleToggleBlock (mac : jsval)
(* the network: what suspended function [i] awaits has settled *)
| Settled (i : nat) (net : reply jsval)
| LogsSettled (i : nat) (net : reply (list logentry))
| LoadSettled (i : nat) (nd : reply (list device)) (nl : reply (list logentry))
(* the timers of a scan *)
| Tick (pollInterval : nat)
| Timeout (pollInterval : nat).

Definition step (st : state) (ev : event) : state :=
  match ev with
  | Mount => suspend LoadAwait (loadData st)
  | ClickScan => if loading st then st else handleScan st
  | ClickPanic => if panicProcessing st then st else handlePanic st
  | ClickUnlockPanic => if unlockProcessing st then st else handleUnlockPanic st
  | HandleScan => handleScan st
  | HandlePanic => handlePanic st
  | HandleUnlockPanic => handleUnlockPanic st
  | HandleToggleBlock m => handleToggleBlock m st
  | Settled i net =>
      match nth_error (pending st) i with
      | Some ScanAwaitTrigger =>
          handleScan_polling (settle triggerScan net) (resume i st)
      | Some (PollAwaitStatus pollInterval) =>
          scanPoll_status pollInterval (settle getScanStatus net) (resume i st)
      | Some (ToggleAwaitResult m) =>
          handleToggleBlock_result m (settle (toggleDeviceBlock m) net)
            (resume i st)
      | Some PanicAwaitResult =>
          handlePanic_result (settle triggerPanicMode net) (resume i st)
      | Some UnlockAwaitResult =>
          handleUnlockPanic_result (settle triggerUnlockPanicControl net)
            (resume i st)
      | _ => st
      end
  | LogsSettled i net =>
      match nth_error (pending st) i with
      | Some ToggleAwaitLogs =>
          handleToggleBlock_logs (settle fetchLogs net) (resume i st)
      | Some PanicAwaitLogs =>
          handlePanic_logs (settle fetchLogs net) (resume i st)
      | Some UnlockAwaitLogs =>
          handleUnlockPanic_logs (settle fetchLogs net) (resume i st)
      | _ => st
      end
  | LoadSettled i nd nl =>
      match nth_error (pending st) i with
      | Some PollAwaitLoad => scanPoll_loaded nd nl (resume i st)
      | Some LoadAwait => loadData_settled nd nl (resume i st)
      | _ => st
      end
  | Tick pollInterval =>
      if mem pollInterval (intervals st) then scanPoll_tick pollInterval st
      else st
  | Timeout pollInterval =>
      if mem pollInterval (timeouts st) then
        scanTimeout pollInterval
          (with_timers (intervals st)
             (remove_first pollInterval (timeouts st)) (next_timer st) st)
      else st
  end.

Definition run (st : state) (evs : list event) : state := fold_left step evs st.

(** *** Observations *)

Definition is_sent (req : request) (e : effect) : bool :=
  match e, req with
  | Sent GetDevices, GetDevices
  | Sent GetLogs, GetLogs
  | Sent PostScan, PostScan
  | Sent GetScanStatus, GetScanStatus
  | Sent PostPanic, PostPanic
  | Sent PostPanicUnlock, PostPanicUnlock => true
  | _, _ => false
  end.

(** How many times a request without arguments went out. *)
Definition sent_count (req : request) (st : state) : nat :=
  List.length (filter (is_sent req) (trace st)).

Definition is_set_devices (e : effect) : bool :=
  match e with SetDevices => true | _ => false end.

Definition is_set_logs (e : effect) : bool :=
  match e with SetLogs => true | _ => false end.

(** A scan session is [Requesting] while [handleScan] waits for
    [triggerScan()], and [Polling] while one of its poll intervals is
    live. *)
Definition requesting (st : state) : bool :=
  existsb (fun t => match t with ScanAwaitTrigger => true | _ => false end)
    (pending st).

Definition polling (st : state) : bool :=
  match intervals st with [] => false | _ :: _ => true end.

(** Toggle requests for [mac] that are on the wire. *)
Definition toggles_in_flight (m : string) (st : state) : nat :=
  List.length (filter (fun t => match t with
                           | ToggleAwaitResult (VStr m') => (m =? m')%string
                           | _ => false
                           end) (pending st)).

(** Bulk requests that are on the wire. *)
Definition panic_in_flight (st : state) : nat :=
  List.length (filter (fun t => match t with PanicAwaitResult => true | _ => false end)
            (pending st)).

Definition unlock_in_flight (st : state) : nat :=
  List.length (filter (fun t => match t with UnlockAwaitResult => true | _ => false end)
            (pending st)).

End App.
Export App.

(* ===================================================================== *)
(** ** App.jsx: the auto-scan polling effect *)
(* ===================================================================== *)

Module AutoScan.

(** [setAutoScanEnabled(v)] and the effect that depends on
    [autoScanEnabled]: when the flag changes, the old interval is cleared
    and, if the flag is on, a new 15 s interval is set whose callback
    closes over the [devices] of that render. *)
Definition setAutoScanEnabled (v : bool) (st : state) : state :=
  if Bool.eqb v (autoScanEnabled st) then st
  else
    with_autoScan v
      (if v then Some (mkPoller (devices st) (List.length (devices st)))
       else None)
      st.

Section Polling.

(** [JSON.stringify] on a device list, a built-in of the runtime. *)
Variable JSON_stringify : list device -> string.

(** One run of the interval callback, from [await fetchDevices()] and
    [await fetchLogs()] to its end. The callback reads nothing of the
    component between its awaits; [nd] and [nl] are the replies to its
    two requests. The tick is taken whole, for a live effect: a tick
    still waiting for its replies when the effect is torn down, which
    would go on to write the stores, is outside this definition. *)
Definition autoScanTick (nd : reply (list device))
      (nl : reply (list logentry)) (st : state) : state :=
    match autoScanPoll st with
    | None => st
    | Some p =>
        let st :=
          emit (map Sent (requests_of (fetchDevices (J := list device)))) st in
        let currentDevices := settled [] fetchDevices nd in
        let st :=
          emit (map Sent (requests_of (fetchLogs (J := list logentry)))) st in
        let currentLogs := settled [] fetchLogs nl in
        if negb (List.length currentDevices =? lastDeviceCount p)%nat
           || negb (JSON_stringify currentDevices
                    =? JSON_stringify (closure_devices p))%string
        then
          let st := setLogs currentLogs (setDevices currentDevices st) in
          with_autoScan (autoScanEnabled st)
            (Some (mkPoller (closure_devices p) (List.length currentDevices)))
            st
        else st
    end.

End Polling.

End AutoScan.
Export AutoScan.

(* ===================================================================== *)
(** ** App.jsx: display names and the QC report *)
(* ===================================================================== *)

Module Report.

Definition isMeaningful (val : jsval) : bool :=
  if negb (truthy val) || negb (typeof val =? "string")%string then false
  else
    match val with
    | VStr s =>
        let trimmed := trim s in
        if (String.length trimmed <=? 1)%nat then false
        else if all_digits trimmed then false
        else true
    | _ => false
    end.

Definition displayNameFor (d : device) : jsval :=
  if isMeaningful (nickname d) then nickname d
  else if isMeaningful (hostname d) then hostname d
  else if isMeaningful (vendor d) then vendor d
  else ip d.

(** [d.isBlocked || d.is_blocked], as a condition. *)
Definition blocked_flag (d : device) : bool :=
  truthy (js_or (isBlocked d) (is_blocked d)).

(** The fields of one row, in the order of the template literal. *)
Definition row_fields (d : device) : list string :=
  let status :=
    if blocked_flag d then "BLOCKED"
    else if risk_score d >? 20 then "VULNERABLE" else "SECURE" in
  let latency :=
    if truthy (latency d) then to_string (latency d) ++ "ms" else "N/A" in
  [ to_string (js_or (vendor d) (name d));
    to_string (ip d);
    mac d;
    to_string (js_or (os_type d) (VStr "Unknown"));
    to_string (js_or (device_type d) (VStr "unknown"));
    dec (risk_score d) ++ "%";
    to_string (js_or (open_ports d) (VNum 0));
    latency;
    status ].

(** The source writes the two characters backslash and n at the end of
    every line; so does this string. *)
Definition row (d : device) : string :=
  String.concat "," (row_fields d) ++ "\n".

Definition dec_nat (n : nat) : string := dec (Z.of_nat n).

(** [csvContent] as [generateQCReport] builds it from [devices]; the
    time stamp is [new Date().toLocaleString()]. The function then offers
    [encodeURI(csvContent)] as a download. *)
Definition generateQCReport (timestamp : string) (devices : list device)
  : string :=
  let total := List.length devices in
  let blocked := List.length (filter blocked_flag devices) in
  let highRisk := List.length (filter (fun d => risk_score d >? 50) devices) in
  let csvContent := "data:text/csv;charset=utf-8," in
  let csvContent := csvContent ++ "AEGIS SECURITY AUDIT REPORT\n" in
  let csvContent := csvContent ++ "Generated At," ++ timestamp ++ "\n" in
  let csvContent := csvContent ++ "Total Devices," ++ dec_nat total ++ "\n" in
  let csvContent :=
    csvContent ++ "Quarantined Devices," ++ dec_nat blocked ++ "\n" in
  let csvContent :=
    csvContent ++ "Critical Threats," ++ dec_nat highRisk ++ "\n\n" in
  let csvContent :=
    csvContent ++ "DEVICE NAME,IP ADDRESS,MAC ADDRESS,OS,TYPE,RISK SCORE,OPEN PORTS,LATENCY,STATUS\n" in
  fold_left (fun csvContent d => csvContent ++ row d) devices csvContent.

(** The name column of a row. *)
Definition row_name (d : device) : string := hd "" (row_fields d).

(** How many members of a list satisfy a test. *)
Fixpoint count {A} (p : A -> bool) (l : list A) : nat :=
  match l with
  | [] => 0%nat
  | x :: rest => ((if p x then 1 else 0) + count p rest)%nat
  end.

End Report.
Export Report.

(* ===================================================================== *)
(** ** Notions used by the statements, and sample data *)
(* ===================================================================== *)

Module Spec.

(** What a reply carries when it is a snapshot: the list of a parsed body,
    nothing otherwise. *)
Definition snapshot {A} (net : reply (list A)) : list A :=
  match net with
  | Response (Some l) => l
  | _ => []
  end.

(** A reply to a toggle request that confirms it: an object whose [status]
    is "success"; it carries the server's [isBlocked]. *)
Definition confirmed (net : reply jsval) : option jsval :=
  match net with
  | Response (Some (VObj fields)) =>
      if strict_eq (lookup "status" fields) (VStr "success")
      then Some (lookup "isBlocked" fields)
      else None
  | _ => None
  end.

(** [handlePanic] is between its entry and its [finally]. *)
Definition is_panic_task (t : task) : bool :=
  match t with PanicAwaitResult | PanicAwaitLogs => true | _ => false end.

Definition is_unlock_task (t : task) : bool :=
  match t with UnlockAwaitResult | UnlockAwaitLogs => true | _ => false end.

Definition panic_running (st : state) : nat :=
  List.length (filter is_panic_task (pending st)).

Definition unlock_running (st : state) : nat :=
  List.length (filter is_unlock_task (pending st)).

(** Each flag is set exactly while its handler runs. *)
Definition flags_track_handlers (st : state) : Prop :=
  panic_running st = (if panicProcessing st then 1 else 0)%nat /\
  unlock_running st = (if unlockProcessing st then 1 else 0)%nat.

(** The rows of a report, one after the other. *)
Fixpoint rows_text (devices : list device) : string :=
  match devices with
  | [] => ""
  | d :: rest => row d ++ rows_text rest
  end.

(** Refreshes so far: calls of [setDevices]. *)
Definition inventory_writes (st : state) : nat :=
  List.length (filter is_set_devices (trace st)).

Definition log_writes (st : state) : nat :=
  List.length (filter is_set_logs (trace st)).

End Spec.
Export Spec.

Module Samples.

Definition dev (m addr : string) (nick host vend : jsval) (risk : Z)
    (blk : jsval) : device :=
  mkDevice m (VStr addr) VUndefined host vend nick (VStr "Linux") (VStr "media")
    risk (VNum 2) (VNum 12) blk VUndefined.

(** A television that the user has labelled. *)
Definition tv : device :=
  dev "aa:bb:cc:00:00:01" "192.168.1.20" (VStr "TV") (VStr "android-tv")
    (VStr "Samsung") 10 (VBool false).

Definition router : device :=
  dev "aa:bb:cc:00:00:02" "192.168.1.1" (VStr "") (VStr "router1") VNull 5
    (VBool false).

Definition nameless : device :=
  dev "aa:bb:cc:00:00:03" "192.168.1.5" (VStr "") (VStr "7") (VStr "12345") 0
    (VBool false).

Definition plain (n : Z) : device :=
  dev "aa:bb:cc:00:01:00" "192.168.1.50" VNull VNull (VStr "Acme") n
    (VBool false).

Definition locked : device :=
  dev "aa:bb:cc:00:02:00" "192.168.1.60" VNull VNull (VStr "Acme") 30
    (VBool true).

(** Ten devices: two blocked, one with risk score 75. *)
Definition inventory10 : list device :=
  [tv; router; nameless; locked; plain 75; locked; plain 50; plain 20;
   plain 0; plain 41].

Definition entry1 : logentry := mkLog 1 "10:00" "Scan completed" "info".
Definition entry2 : logentry := mkLog 2 "10:05" "Device blocked" "danger".

Definition ack : reply jsval :=
  Response (Some (VObj [("status", VStr "success")])).

Definition not_scanning : reply jsval :=
  Response (Some (VObj [("is_scanning", VBool false)])).

Definition still_scanning : reply jsval :=
  Response (Some (VObj [("is_scanning", VBool true)])).

Definition toggled (b : bool) : reply jsval :=
  Response (Some (VObj [("status", VStr "success"); ("isBlocked", VBool b)])).

Definition tv_mac : jsval := VStr "aa:bb:cc:00:00:01".

(** The dashboard once its first load has come back. *)
Definition loaded_state : state :=
  run initial
    [Mount; LoadSettled 0 (Response (Some [tv; router])) (Response (Some [entry1]))].

(** A toggle of the television is on the wire. *)
Definition toggling_state : state := run loaded_state [HandleToggleBlock tv_mac].

(** A scan session that is polling: the button was clicked and the
    backend has acknowledged. *)
Definition polling_state : state := run initial [ClickScan; Settled 0 ack].

(** A scan session that is requesting. *)
Definition requesting_state : state := run initial [ClickScan].

(** A session that completes at its first poll, and whose 120 s timer
    fires afterwards. *)
Definition completed_then_timer (nd : reply (list device))
    (nl : reply (list logentry)) : list event :=
  [ClickScan; Settled 0 ack; Tick 0; Settled 0 not_scanning;
   LoadSettled 0 nd nl; Timeout 0; LoadSettled 0 nd nl].

(** A session that is still scanning at every poll until its timer fires. *)
Definition never_completes (nd : reply (list device))
    (nl : reply (list logentry)) : list event :=
  [ClickScan; Settled 0 ack; Tick 0; Settled 0 still_scanning; Tick 0;
   Settled 0 still_scanning; Timeout 0; LoadSettled 0 nd nl].

(** A first session completes, a second one is started, and the timer of
    the first fires while the second polls. *)
Definition second_session_meets_first_timer (nd : reply (list device))
    (nl : reply (list logentry)) : list event :=
  [ClickScan; Settled 0 ack; Tick 0; Settled 0 not_scanning;
   LoadSettled 0 nd nl; ClickScan; Settled 0 ack; Timeout 0].

(** A serialiser that tells lists of different lengths apart. *)
Definition by_length (ds : list device) : string := dec_nat (List.length ds).

End Samples.
Export Samples.

(* ===================================================================== *)
(** ** api.js: the remaining request functions *)
(* ===================================================================== *)

Module MoreApi.

Inductive endpoint : Type :=
| PostScanForce                               (* POST /api/scan/force *)
| PostTrain                                   (* POST /api/ai/train *)
| PostAutoScanStart (interval_minutes : jsval)
                                  (* POST /api/auto-scan/start?interval_minutes=.. *)
| PostAutoScanStop                            (* POST /api/auto-scan/stop *)
| GetAutoScanStatus                           (* GET  /api/auto-scan/status *)
| PostChat (message : jsval).                 (* POST /api/chat *)

(** A request function that always puts its request on the wire; [k] is
    the rest of its body, try/catch included. *)
Inductive ask (A : Type) : Type :=
| Ask (req : endpoint) (k : reply jsval -> outcome A).
Arguments Ask {A} req k.

Definition asked {A} (c : ask A) : endpoint :=
  match c with Ask req _ => req end.

Definition answer {A} (c : ask A) (net : reply jsval) : outcome A :=
  match c with Ask _ k => k net end.

(** [forceScan] awaits the fetch and returns nothing. *)
Definition forceScan : ask jsval :=
  Ask PostScanForce (fun net =>
    try (_ <- fetch net ;; Value VUndefined)
    catch (fun _ => Value VUndefined)).

Definition trainAI : ask jsval :=
  Ask PostTrain (fun net =>
    try (response <- fetch net ;; json response)
    catch (fun _ => Value (VObj [("status", VStr "error")]))).

(** [startAutoScan(intervalMinutes = 5)]: the default stands in for
    [undefined]. *)
Definition startAutoScan (intervalMinutes : jsval) : ask jsval :=
  let intervalMinutes :=
    match intervalMinutes with VUndefined => VNum 5 | v => v end in
  Ask (PostAutoScanStart intervalMinutes) (fun net =>
    try (response <- fetch net ;; json response)
    catch (fun _ => Value (VObj [("status", VStr "error")]))).

Definition stopAutoScan : ask jsval :=
  Ask PostAutoScanStop (fun net =>
    try (response <- fetch net ;; json response)
    catch (fun _ => Value (VObj [("status", VStr "error")]))).

Definition getAutoScanStatus : ask jsval :=
  Ask GetAutoScanStatus (fun net =>
    try (response <- fetch net ;; json response)
    catch (fun _ =>
      Value (VObj [("enabled", VBool false); ("interval_minutes", VNum 5)]))).

Definition sendMessageToChatbot (message : jsval) : ask jsval :=
  Ask (PostChat message) (fun net =>
    try (response <- fetch net ;; json response)
    catch (fun _ =>
      Value (VObj [("reply", VStr "Sorry, I'm having trouble connecting to the Aegis server right now.")]))).

End MoreApi.
Export MoreApi.

(* ===================================================================== *)
(** ** App.jsx: the inspector and the auto-scan switch *)
(* ===================================================================== *)

Module Inspector.

(** [{ ...d, nickname: v }] *)
Definition with_nickname (d : device) (v : jsval) : device :=
  mkDevice (mac d) (ip d) (name d) (hostname d) (vendor d) v
    (os_type d) (device_type d) (risk_score d) (open_ports d) (latency d)
    (isBlocked d) (is_blocked d).

(** The draft that [openDeviceModal] puts in the label field:
    [device.nickname || device.name || device.vendor || ""]. *)
Definition openDeviceModal (d : device) : jsval :=
  js_or (js_or (js_or (nickname d) (name d)) (vendor d)) (VStr "").

(** The updater of the Save button:
    [d.mac === mac ? { ...d, nickname: nicknameDraft || "" } : d]. *)
Definition patch_nickname (mac' : string) (nicknameDraft : jsval) (d : device)
  : device :=
  if (mac d =? mac')%string
  then with_nickname d (js_or nicknameDraft (VStr ""))
  else d.

(** The Save button, up to [await updateDeviceNickname(...)]: nothing
    without a selected device, otherwise the API call. *)
Definition saveNickname (selectedDevice : option device)
    (nicknameDraft : jsval) : option (call jsval jsval) :=
  match selectedDevice with
  | None => None
  | Some d =>
      Some (updateDeviceNickname (VStr (mac d))
              (js_or nicknameDraft (VStr "")))
  end.

(** The Save button after the await; [mac] and [nicknameDraft] are those
    of its closure, the device list is the current one. *)
Definition saveNickname_result (mac' : string) (nicknameDraft : jsval)
    (r : outcome jsval) (st : state) : state :=
  match (result <- r ;; is_success result) with
  | Value true =>
      setDevices (map (patch_nickname mac' nicknameDraft) (devices st)) st
  | Value false => st
  | Thrown _ => st
  end.

(** The whole click, the reply to the request (if one goes out) being
    [net]. *)
Definition clickSave (selectedDevice : option device) (nicknameDraft : jsval)
    (net : reply jsval) (st : state) : state :=
  match selectedDevice with
  | None => st
  | Some d =>
      saveNickname_result (mac d) nicknameDraft
        (settle (updateDeviceNickname (VStr (mac d))
                   (js_or nicknameDraft (VStr ""))) net)
        st
  end.

End Inspector.
Export Inspector.

Module AutoScanSwitch.

(** The request [handleToggleAutoScan] sends: stop when the render saw
    auto-scan on, start with the chosen interval otherwise. *)
Definition handleToggleAutoScan (autoScanInterval : jsval) (st : state)
  : ask jsval :=
  if autoScanEnabled st then stopAutoScan
  else startAutoScan autoScanInterval.

(** ["Failed to ... auto-scan: " + (result.message || "Unknown error")] *)
Definition failure_text (prefix : string) (result : jsval) : outcome string :=
  message <- prop result "message" ;;
  Value (prefix ++ to_string (js_or message (VStr "Unknown error"))).

(** [handleToggleAutoScan] after its await. [wasEnabled] is the
    [autoScanEnabled] of its closure, which chose the branch. The second
    component tells whether [setTimeout(() => loadData(), 2000)] was set.
    Nothing catches a throw ([result] is [null]): the handler just stops. *)
Definition handleToggleAutoScan_result (wasEnabled : bool)
    (r : outcome jsval) (st : state) : state * bool :=
  if wasEnabled then
    match (result <- r ;;
           status <- prop result "status" ;;
           if strict_eq status (VStr "success") then Value None
           else (msg <- failure_text "Failed to stop auto-scan: " result ;;
                 Value (Some msg))) with
    | Value None =>
        let st := setAutoScanEnabled false st in
        (suspend LoadAwait (loadData st), false)
    | Value (Some msg) => (emit [Alert msg] st, false)
    | Thrown _ => (st, false)
    end
  else
    match (result <- r ;;
           status <- prop result "status" ;;
           if strict_eq status (VStr "success") then Value None
           else (msg <- failure_text "Failed to start auto-scan: " result ;;
                 Value (Some msg))) with
    | Value None => (setAutoScanEnabled true st, true)
    | Value (Some msg) => (emit [Alert msg] st, false)
    | Thrown _ => (st, false)
    end.

End AutoScanSwitch.
Export AutoScanSwitch.

(* ===================================================================== *)
(** ** Chatbot.jsx *)
(* ===================================================================== *)

Module Chatbot.

Record message : Type := mkMessage {
  role : string;
  content : jsval
}.

(** The [useState] cells of the component, the user messages of the
    [handleSend] calls suspended at their await, and the requests sent.
    [crashed] is set when a state updater throws while React renders:
    nothing in the application catches a render error, so the tree is
    unmounted and no event reaches the component any more. *)
Record state : Type := mkChat {
  input : string;
  messages : list message;
  loading : bool;
  awaiting : list string;
  sent : list endpoint;
  crashed : bool
}.

Definition initial : state :=
  mkChat ""
    [mkMessage "bot" (VStr "Hello! I'm Aegis AI. I can help you with your network security. Try asking 'How many devices are connected?'")]
    false [] [] false.

(** [handleSend] up to [await sendMessageToChatbot(userMessage)]. *)
Definition handleSend (st : state) : state :=
  if negb (truthy (VStr (trim (input st)))) || loading st then st
  else
    let userMessage := trim (input st) in
    mkChat ""
      (messages st ++ [mkMessage "user" (VStr userMessage)])
      true
      (awaiting st ++ [userMessage])
      (sent st ++ [asked (sendMessageToChatbot (VStr userMessage))])
      (crashed st).

(** [handleSend] after the await. The [try] body only hands React the
    updater [(prev) => [...prev, { role: "bot", content: result.reply }]];
    [result.reply] is read when React runs it, outside the [try], so a
    throw there ([result] is [null]) is a render error and not a case of
    the [catch]. The [catch] serves a rejected await; the [finally]
    clears [loading]. *)
Definition handleSend_result (r : outcome jsval) (st : state) : state :=
  match r with
  | Thrown _ =>
      mkChat (input st)
        (messages st
         ++ [mkMessage "bot"
               (VStr "I'm sorry, I'm having trouble responding right now.")])
        false (awaiting st) (sent st) (crashed st)
  | Value result =>
      match prop result "reply" with
      | Value reply =>
          mkChat (input st) (messages st ++ [mkMessage "bot" reply]) false
            (awaiting st) (sent st) (crashed st)
      | Thrown _ =>
          mkChat (input st) (messages st) false (awaiting st) (sent st) true
      end
  end.

Inductive event : Type :=
| Type_ (text : string)          (* the input field changes *)
| Submit                         (* the form is submitted *)
| Reply (net : reply jsval).     (* the oldest request settles *)

Definition step (st : state) (ev : event) : state :=
  if crashed st then st
  else
    match ev with
    | Type_ text =>
        mkChat text (messages st) (loading st) (awaiting st) (sent st)
          (crashed st)
    | Submit => handleSend st
    | Reply net =>
        match awaiting st with
        | [] => st
        | userMessage :: rest =>
            handleSend_result
              (answer (sendMessageToChatbot (VStr userMessage)) net)
              (mkChat (input st) (messages st) (loading st) rest (sent st)
                 (crashed st))
        end
    end.

Definition run (st : state) (evs : list event) : state := fold_left step evs st.

Definition by_role (r : string) (st : state) : nat :=
  List.length (filter (fun m => (role m =? r)%string) (messages st)).

End Chatbot.

(* ===================================================================== *)
(** ** Further notions used by the statements *)
(* ===================================================================== *)

Module Checks.

(** A reply that never reached the application level. *)
Definition transport_failure {R} (net : reply R) : Prop :=
  net = Unreachable \/ net = Response None.

(** The status column of a row. *)
Definition row_status (d : device) : string := last (row_fields d) "".

(** How often a character occurs in a string. *)
Fixpoint occurrences (c : ascii) (s : string) : nat :=
  match s with
  | EmptyString => 0%nat
  | String c' rest =>
      ((if Ascii.eqb c c' then 1 else 0) + occurrences c rest)%nat
  end.

Definition LF : ascii := ascii_of_nat 10.

Definition comma : ascii := ascii_of_nat 44.

Fixpoint total (l : list nat) : nat :=
  match l with
  | [] => 0%nat
  | n :: rest => (n + total rest)%nat
  end.

Definition is_alert (e : effect) : bool :=
  match e with Alert _ => true | _ => false end.

Definition alerts (st : App.state) : nat :=
  List.length (filter is_alert (trace st)).

(** Suspended functions that wait for a log fetch. *)
Definition awaits_logs (t : task) : bool :=
  match t with
  | PollAwaitLoad | LoadAwait | ToggleAwaitLogs | PanicAwaitLogs
  | UnlockAwaitLogs => true
  | _ => false
  end.

Definition log_fetches_in_flight (st : App.state) : nat :=
  List.length (filter awaits_logs (pending st)).

(** Timer identifiers are handed out once, and a poll interval is live
    only while the timeout set with it is armed. *)
Definition timers_consistent (st : state) : Prop :=
  NoDup (intervals st) /\ NoDup (timeouts st) /\
  (forall iv, In iv (intervals st) -> In iv (timeouts st)) /\
  (forall iv, In iv (timeouts st) -> (iv < next_timer st)%nat).

(** Every log fetch sent is either written to the log store or still in
    flight. *)
Definition logs_accounted (st : state) : Prop :=
  sent_count GetLogs st = (log_writes st + log_fetches_in_flight st)%nat.

(** The conversation is in step: one request per user message, one bot
    message per settled request but for the one whose reply made the
    render throw, at most one request in flight, and nothing blank was
    ever sent. *)
Definition conversation_in_step (st : Chatbot.state) : Prop :=
  List.length (Chatbot.awaiting st)
  = (if Chatbot.loading st then 1 else 0)%nat /\
  Chatbot.by_role "user" st = List.length (Chatbot.sent st) /\
  (Chatbot.by_role "bot" st + List.length (Chatbot.awaiting st)
   + (if Chatbot.crashed st then 1 else 0))%nat
  = S (Chatbot.by_role "user" st) /\
  (forall req, In req (Chatbot.sent st) ->
     exists s, req = PostChat (VStr s) /\ s <> "" /\ trim s = s).

End Checks.
Export Checks.

(* ===================================================================== *)
(** ** The toggle button, and what the statements say of stores *)
(* ===================================================================== *)

Module Observed.

(** The Block / Restore button of the inspector, as the dashboard view
    that binds [handleToggleBlock] has it:
    [onClick={() => handleToggleBlock(selectedDevice.mac)}] with
    [disabled={processingId === selectedDevice.mac}]. The device is the
    one the inspector shows when the user clicks. *)
Definition clickToggle (selectedDevice : device) (st : state) : state :=
  if strict_eq (processingId st) (VStr (mac selectedDevice)) then st
  else handleToggleBlock (VStr (mac selectedDevice)) st.

(** [d'] is [d] in every field but [isBlocked]. *)
Definition same_but_isBlocked (d d' : device) : Prop :=
  mac d' = mac d /\ ip d' = ip d /\ name d' = name d /\
  hostname d' = hostname d /\ vendor d' = vendor d /\
  nickname d' = nickname d /\ os_type d' = os_type d /\
  device_type d' = device_type d /\ risk_score d' = risk_score d /\
  open_ports d' = open_ports d /\ latency d' = latency d /\
  is_blocked d' = is_blocked d.

(** [after] is [before] with [isBlocked] set to [v] on the devices whose
    mac is [m], position by position, and nothing else changed. *)
Definition toggled_store (m v : jsval) (before after : list device) : Prop :=
  Forall2
    (fun d d' =>
       (m = VStr (mac d) -> isBlocked d' = v /\ same_but_isBlocked d d') /\
       (m <> VStr (mac d) -> d' = d))
    before after.

(** A device counts as quarantined when either spelling of its flag is
    truthy. *)
Definition flagged (d : device) : bool :=
  truthy (isBlocked d) || truthy (is_blocked d).

Definition critical (d : device) : bool := 50 <? risk_score d.

(** A device that came with [is_blocked: true] and whose unblocking the
    backend has confirmed. *)
Definition restored : device :=
  mkDevice "aa:bb:cc:00:00:07" (VStr "192.168.1.70") VUndefined VNull
    (VStr "Acme") VNull VNull VNull 10 VNull VNull (VBool false) (VBool true).

(** The same device as the backend first sent it. *)
Definition quarantined : device :=
  mkDevice "aa:bb:cc:00:00:07" (VStr "192.168.1.70") VUndefined VNull
    (VStr "Acme") VNull VNull VNull 10 VNull VNull VUndefined (VBool true).

(** An error answered in JSON, as a server does on 401. *)
Definition not_authenticated : reply jsval :=
  Response (Some (VObj [("detail", VStr "Not authenticated")])).

End Observed.
Export Observed.

(* ===================================================================== *)
(** * Properties *)
(* ===================================================================== *)

(** ** The backend boundary *)

Section Boundary.

(** C6, as stated, fails on a failure that is answered in JSON: the body
    is returned as it is, so an error object or [null] reaches the
    caller where an empty list is promised. *)
Lemma fetch_returns_error_body_as_is :
  settle fetchDevices not_authenticated
  = Value (VObj [("detail", VStr "Not authenticated")]) /\
  settle fetchDevices not_authenticated <> Value (VArr []) /\
  settle fetchLogs (Response (Some VNull)) = Value VNull /\
  settle fetchLogs (Response (Some VNull)) <> Value (VArr []).
Proof. repeat split; discriminate. Qed.

(** C6, amended. [fetchDevices] and [fetchLogs] never throw: whatever
    the reply, their promise fulfils. It fulfils with the empty list when
    the backend is unreachable or the body does not parse, and with the
    parsed body, whatever its shape and whatever the HTTP status, in
    every other case. *)
Theorem fetch_failure_gives_empty_snapshot :
  forall net : reply jsval,
    settle fetchDevices net
    = Value match net with Response (Some v) => v | _ => VArr [] end /\
    settle fetchLogs net
    = Value match net with Response (Some v) => v | _ => VArr [] end /\
    settle fetchDevices (@Unreachable jsval) = Value (VArr []) /\
    settle fetchDevices (@Response jsval None) = Value (VArr []) /\
    settle fetchLogs (@Unreachable jsval) = Value (VArr []) /\
    settle fetchLogs (@Response jsval None) = Value (VArr []).
Proof.
  intros net. repeat split; destruct net as [|[v|]]; reflexivity.
Qed.

(** Read at the list types, the same functions give the snapshot of the
    reply. *)
Lemma settled_fetchDevices (nd : reply (list device)) :
  settled [] fetchDevices nd = snapshot nd.
Proof. destruct nd as [|[ds|]]; reflexivity. Qed.

Lemma settled_fetchLogs (nl : reply (list logentry)) :
  settled [] fetchLogs nl = snapshot nl.
Proof. destruct nl as [|[ls|]]; reflexivity. Qed.

(** C10. Called with a falsy device identifier, [toggleDeviceBlock] and
    [updateDeviceNickname] return [undefined] at once: no request goes
    out, and whatever the network would have answered the result is
    [undefined]. *)
Theorem falsy_device_id_sends_nothing (deviceId nickname : jsval)
    (Hfalsy : truthy deviceId = false) :
  requests_of (toggleDeviceBlock deviceId) = [] /\
  requests_of (updateDeviceNickname deviceId nickname) = [] /\
  (forall net, settle (toggleDeviceBlock deviceId) net = Value VUndefined) /\
  (forall net,
      settle (updateDeviceNickname deviceId nickname) net = Value VUndefined).
Proof.
  unfold toggleDeviceBlock, updateDeviceNickname.
  rewrite Hfalsy. simpl. repeat split.
Qed.

Lemma falsy_device_id_sends_nothing_null :
  truthy VNull = false /\
  requests_of (toggleDeviceBlock VNull) = [] /\
  requests_of (updateDeviceNickname VNull (VStr "Living Room TV")) = [] /\
  (forall net, settle (toggleDeviceBlock VNull) net = Value VUndefined) /\
  (forall net,
      settle (updateDeviceNickname VNull (VStr "Living Room TV")) net
      = Value VUndefined).
Proof.
  split; [reflexivity |].
  apply (falsy_device_id_sends_nothing VNull (VStr "Living Room TV")).
  reflexivity.
Defined.

(** The falsy identifiers, one by one. *)
Lemma falsy_identifiers :
  map truthy [VUndefined; VNull; VBool false; VNum 0; VStr ""]
  = [false; false; false; false; false].
Proof. reflexivity. Qed.

(** With a truthy identifier the request does go out. *)
Lemma truthy_device_id_sends (deviceId : jsval) :
  truthy deviceId = true ->
  requests_of (toggleDeviceBlock deviceId) = [PostBlock deviceId].
Proof. intros H. unfold toggleDeviceBlock. rewrite H. reflexivity. Qed.

End Boundary.

(** ** Block toggle *)

Section Toggle.

#[local] Arguments remove_nth : simpl never.

Lemma nth_error_snoc {A} (l : list A) (x : A) :
  nth_error (l ++ [x]) (List.length l) = Some x.
Proof.
  rewrite nth_error_app2 by lia. rewrite Nat.sub_diag. reflexivity.
Qed.

Lemma remove_nth_snoc {A} (l : list A) (x : A) :
  remove_nth (List.length l) (l ++ [x]) = l.
Proof.
  unfold remove_nth. induction l as [|a l IH]; simpl.
  - reflexivity.
  - simpl in IH. rewrite IH. reflexivity.
Qed.

(** What the toggle API call settles with when the identifier is truthy. *)
Lemma toggle_result_success (m : jsval) (net : reply jsval) (v : jsval) :
  truthy m = true -> confirmed net = Some v ->
  exists result,
    settle (toggleDeviceBlock m) net = Value result /\
    is_success result = Value true /\ prop result "isBlocked" = Value v.
Proof.
  intros Hm Hc. unfold toggleDeviceBlock. rewrite Hm. simpl.
  destruct net as [|[result|]]; try discriminate.
  destruct result; try discriminate. simpl in Hc.
  destruct (strict_eq (lookup "status" fields) (VStr "success")) eqn:E;
    [| discriminate].
  injection Hc as <-.
  exists (VObj fields). simpl. unfold is_success. simpl. rewrite E. auto.
Qed.

Lemma toggle_result_failure (m : jsval) (net : reply jsval) :
  truthy m = true -> confirmed net = None ->
  exists result,
    settle (toggleDeviceBlock m) net = Value result /\
    is_success result = Value false.
Proof.
  intros Hm Hc. unfold toggleDeviceBlock. rewrite Hm. simpl.
  destruct net as [|[result|]]; simpl.
  - exists VUndefined. auto.
  - exists result. split; [reflexivity |].
    destruct result as [| |b|n|s|items|fields]; simpl; try reflexivity.
    + destruct b; reflexivity.
    + unfold is_success. simpl. destruct (n =? 0); reflexivity.
    + unfold is_success. simpl. destruct (s =? "")%string; reflexivity.
    + simpl in Hc. unfold is_success. simpl.
      destruct (strict_eq (lookup "status" fields) (VStr "success"));
        [discriminate | reflexivity].
  - exists VUndefined. auto.
Qed.

Lemma patch_blocked_other (m v : jsval) (d : device) :
  m <> VStr (mac d) -> patch_blocked m v d = d.
Proof.
  intros Hne. unfold patch_blocked.
  destruct m as [| |b|n|s|items|fields]; simpl; try reflexivity.
  destruct (String.eqb_spec (mac d) s) as [E | E]; [| reflexivity].
  subst s. congruence.
Qed.

Lemma patch_blocked_self (v : jsval) (d : device) :
  patch_blocked (VStr (mac d)) v d = with_isBlocked d v.
Proof.
  unfold patch_blocked. simpl. rewrite String.eqb_refl. reflexivity.
Qed.

Lemma patch_blocked_cases (m v : jsval) (d : device) :
  (m = VStr (mac d) /\ patch_blocked m v d = with_isBlocked d v) \/
  (m <> VStr (mac d) /\ patch_blocked m v d = d).
Proof.
  destruct m as [| |b|n|s|items|fields];
    try (right; split; [discriminate | reflexivity]).
  destruct (String.eqb_spec (mac d) s) as [E | E].
  - subst s. left. split; [reflexivity | apply patch_blocked_self].
  - right. split; [congruence |]. apply patch_blocked_other. congruence.
Qed.

(** The updater of a confirmed toggle sets [isBlocked] to the confirmed
    value on the devices with that mac and leaves every other field and
    every other device alone. *)
Lemma patch_blocked_toggles (m v : jsval) (devices : list device) :
  toggled_store m v devices (map (patch_blocked m v) devices).
Proof.
  induction devices as [|d rest IH]; simpl; constructor; [| exact IH].
  destruct (patch_blocked_cases m v d) as [[E ->] | [E ->]].
  - split; [| congruence]. intros _. split; [reflexivity |].
    repeat split.
  - split; [congruence | reflexivity].
Qed.

(** C2. When the toggle request of a suspended [handleToggleBlock]
    settles, the device store is written if and only if the reply
    confirms success: then [isBlocked] is the server's value on every
    device with that mac, every other field and every other device is as
    it was, a log fetch goes out, and when it settles the log store holds
    what was fetched; on any other reply (failure status, backend
    unreachable, unparsable body) the stores are not written and no
    request goes out. *)
Theorem toggle_applies_confirmed_result_only (st : state) (i : nat)
    (m : jsval) (net : reply jsval)
    (Hm : truthy m = true)
    (Hawait : nth_error (pending st) i = Some (ToggleAwaitResult m)) :
  let st' := step st (Settled i net) in
  match confirmed net with
  | Some v =>
      toggled_store m v (devices st) (devices st') /\
      logs st' = logs st /\
      trace st' = (trace st ++ [SetDevices; Sent GetLogs])%list /\
      pending st' = (remove_nth i (pending st) ++ [ToggleAwaitLogs])%list /\
      forall nl,
        let st'' :=
          step st' (LogsSettled (List.length (remove_nth i (pending st))) nl) in
        logs st'' = snapshot nl /\
        devices st'' = devices st' /\
        trace st'' = (trace st' ++ [SetLogs])%list /\
        processingId st'' = VNull /\
        pending st'' = remove_nth i (pending st)
  | None =>
      devices st' = devices st /\
      logs st' = logs st /\
      trace st' = trace st /\
      processingId st' = VNull /\
      pending st' = remove_nth i (pending st)
  end.
Proof.
  simpl. rewrite Hawait.
  destruct (confirmed net) as [v|] eqn:Hc.
  - destruct (toggle_result_success m net v Hm Hc) as (result & -> & Hok & Hv).
    unfold handleToggleBlock_result. simpl. rewrite Hok. simpl. rewrite Hv.
    simpl. rewrite <- !app_assoc. simpl.
    split; [apply patch_blocked_toggles |].
    do 3 (split; [reflexivity |]).
    intros nl. rewrite nth_error_snoc.
    destruct nl as [|[ls|]]; simpl; rewrite remove_nth_snoc;
      rewrite <- ?app_assoc; repeat split.
  - destruct (toggle_result_failure m net Hm Hc) as (result & -> & Hok).
    unfold handleToggleBlock_result. simpl. rewrite Hok. simpl. repeat split.
Qed.

Lemma toggle_applies_confirmed_result_only_tv :
  truthy tv_mac = true /\
  nth_error (pending toggling_state) 0 = Some (ToggleAwaitResult tv_mac) /\
  let st' := step toggling_state (Settled 0 (toggled true)) in
  toggled_store tv_mac (VBool true) [tv; router] (devices st') /\
  logs st' = [entry1] /\
  trace st' = (trace toggling_state ++ [SetDevices; Sent GetLogs])%list.
Proof.
  split; [reflexivity |]. split; [reflexivity |].
  pose proof (toggle_applies_confirmed_result_only toggling_state 0 tv_mac
                (toggled true) eq_refl eq_refl) as H.
  destruct H as (Hd & Hl & Ht & _).
  split; [exact Hd |]. split; [exact Hl | exact Ht].
Defined.

(** The confirmed value, read off the store. *)
Example toggle_confirmed_sets_isBlocked :
  let st' := step toggling_state (Settled 0 (toggled true)) in
  map isBlocked (devices toggling_state) = [VBool false; VBool false] /\
  map isBlocked (devices st') = [VBool true; VBool false] /\
  map mac (devices st') = map mac (devices toggling_state) /\
  map nickname (devices st') = [VStr "TV"; VStr ""].
Proof. repeat split. Qed.

(** The toggle fails: nothing is written. *)
Example toggle_unreachable_leaves_stores :
  let st' := step toggling_state (Settled 0 Unreachable) in
  devices st' = [tv; router] /\ logs st' = [entry1] /\
  trace st' = trace toggling_state /\ processingId st' = VNull.
Proof. repeat split. Qed.

End Toggle.

(** ** Scan sessions *)

Section Scan.

(** While [loading] is set the Scan button is disabled: a click changes
    nothing. *)
Lemma scan_click_inert_while_loading (st : state) :
  loading st = true -> step st ClickScan = st.
Proof. intros H. simpl. rewrite H. reflexivity. Qed.

(** C1. Starting a scan during a session is not always a no-op. A first
    session completes, the user starts a second one, and the 120 s timer
    of the first, which its completion did not cancel, fires while the
    second polls: it clears [loading], the Scan button is enabled again,
    and a click sends another begin-scan request and sets up a third
    session beside the one that is polling. Every event is a click on an
    enabled button, a reply or a timer. *)
Theorem scan_click_during_polling_starts_another_session :
  forall (nd : reply (list device)) (nl : reply (list logentry)),
    let st := run initial (second_session_meets_first_timer nd nl) in
    polling st = true /\ intervals st = [1%nat] /\
    loading st = false /\
    step st ClickScan <> st /\
    trace (step st ClickScan) = (trace st ++ [Sent PostScan])%list /\
    sent_count PostScan (step st ClickScan) = 3%nat /\
    requesting (step st ClickScan) = true /\
    intervals (run st [ClickScan; Settled 1 ack]) = [1%nat; 2%nat].
Proof.
  intros nd nl st.
  split; [reflexivity |]. split; [reflexivity |]. split; [reflexivity |].
  split.
  - intros E.
    assert (E2 : List.length (trace (step st ClickScan))
                 = List.length (trace st)) by (rewrite E; reflexivity).
    vm_compute in E2. discriminate E2.
  - split; [vm_compute; reflexivity |]. split; [vm_compute; reflexivity |].
    split; vm_compute; reflexivity.
Qed.

(** A click on the enabled button starts a session. *)
Lemma scan_click_starts_session (st : state) :
  loading st = false ->
  step st ClickScan = handleScan st /\ loading (step st ClickScan) = true.
Proof. intros H. simpl. rewrite H. split; reflexivity. Qed.

(** C3. A session that completes at a poll refreshes the stores there,
    and a second time when its 120 s timer, which completion does not
    cancel, fires: two inventory fetches, two log fetches, two writes of
    each store, for one begin-scan request. *)
Theorem completed_scan_refreshes_again_at_timeout :
  forall (nd : reply (list device)) (nl : reply (list logentry)),
    let st := run initial (completed_then_timer nd nl) in
    sent_count PostScan st = 1%nat /\
    sent_count GetDevices st = 2%nat /\
    sent_count GetLogs st = 2%nat /\
    inventory_writes st = 2%nat /\
    log_writes st = 2%nat /\
    trace st = [Sent PostScan; Sent GetScanStatus;
                Sent GetDevices; Sent GetLogs; SetDevices; SetLogs;
                Sent GetDevices; Sent GetLogs; SetDevices; SetLogs].
Proof.
  intros nd nl. repeat split.
Qed.

(** A session that never sees "not scanning" ends at the timer and
    refreshes once. *)
Lemma timed_out_scan_refreshes_once :
  forall (nd : reply (list device)) (nl : reply (list logentry)),
    let st := run initial (never_completes nd nl) in
    sent_count GetDevices st = 1%nat /\
    inventory_writes st = 1%nat /\
    log_writes st = 1%nat /\
    loading st = false /\ polling st = false /\
    devices st = snapshot nd /\ logs st = snapshot nl.
Proof.
  intros nd nl. repeat split.
  - destruct nd as [|[ds|]]; reflexivity.
  - destruct nl as [|[ls|]]; reflexivity.
Qed.

(** The timer of a completed session also clears [loading] under a later
    session: the Scan button is enabled again while that session polls,
    and the next click sends another begin-scan request. *)
Lemma stale_timer_enables_scan_button :
  forall (nd : reply (list device)) (nl : reply (list logentry)),
    let st := run initial (second_session_meets_first_timer nd nl) in
    polling st = true /\ loading st = false /\
    sent_count PostScan st = 2%nat /\
    sent_count PostScan (step st ClickScan) = 3%nat.
Proof.
  intros nd nl. repeat split.
Qed.

(** No store is written while a session polls and the backend still
    scans. *)
Lemma poll_while_scanning_writes_nothing (st : state) (i pollInterval : nat) :
  nth_error (pending st) i = Some (PollAwaitStatus pollInterval) ->
  let st' := step st (Settled i still_scanning) in
  devices st' = devices st /\ logs st' = logs st /\ trace st' = trace st.
Proof.
  intros H. simpl. rewrite H. repeat split.
Qed.

End Scan.

(** ** Block toggle: no lock *)

Section ToggleLock.

(** [handleToggleBlock] itself tests nothing before sending: called with a
    truthy mac it records the mac in [processingId], sends one toggle
    request and suspends. *)
Lemma toggle_always_sends (st : state) (m : jsval) :
  truthy m = true ->
  let st' := step st (HandleToggleBlock m) in
  trace st' = (trace st ++ [Sent (PostBlock m)])%list /\
  pending st' = (pending st ++ [ToggleAwaitResult m])%list /\
  processingId st' = m /\
  devices st' = devices st /\ logs st' = logs st.
Proof.
  intros Hm. simpl. unfold handleToggleBlock, toggleDeviceBlock. rewrite Hm.
  simpl. repeat split.
Qed.

(** The button of a device is inert while [processingId] is its mac. *)
Lemma toggle_click_inert_while_processing (d : device) (st : state) :
  processingId st = VStr (mac d) -> clickToggle d st = st.
Proof.
  intros H. unfold clickToggle. rewrite H. simpl.
  rewrite String.eqb_refl. reflexivity.
Qed.

(** C4. A toggle can be sent for a mac whose toggle is in flight. The
    lock is the one cell [processingId], and the button of a device is
    disabled only while that cell holds its mac: the user toggles the
    television, then the router, and [processingId] now names the router;
    the television's button is enabled again although its request has
    not settled, and a click on it sends a second toggle request for the
    same mac. Every event is a click on an enabled button. *)
Theorem toggle_lock_forgets_earlier_mac :
  let s1 := clickToggle tv loaded_state in
  let s2 := clickToggle router s1 in
  let s3 := clickToggle tv s2 in
  toggles_in_flight (mac tv) s1 = 1%nat /\
  clickToggle tv s1 = s1 /\
  processingId s2 = VStr (mac router) /\
  toggles_in_flight (mac tv) s2 = 1%nat /\
  trace s3 = (trace s2 ++ [Sent (PostBlock (VStr (mac tv)))])%list /\
  toggles_in_flight (mac tv) s3 = 2%nat /\
  pending s3
  = [ToggleAwaitResult (VStr (mac tv)); ToggleAwaitResult (VStr (mac router));
     ToggleAwaitResult (VStr (mac tv))].
Proof.
  cbv zeta.
  split; [reflexivity |]. split; [reflexivity |]. split; [reflexivity |].
  split; [reflexivity |]. split; [reflexivity |]. split; reflexivity.
Qed.

(** With a falsy mac nothing is sent and the handler ends at once. *)
Lemma toggle_falsy_mac_sends_nothing (st : state) (m : jsval) :
  truthy m = false ->
  let st' := step st (HandleToggleBlock m) in
  trace st' = trace st /\ pending st' = pending st /\
  devices st' = devices st /\ logs st' = logs st /\ processingId st' = VNull.
Proof.
  intros H. simpl. unfold handleToggleBlock, toggleDeviceBlock. rewrite H.
  simpl. repeat split.
Qed.

End ToggleLock.

(** ** Bulk actions *)

Section Bulk.

#[local] Arguments remove_nth : simpl never.

Lemma count_snoc {A} (p : A -> bool) (l : list A) (x : A) :
  List.length (filter p (l ++ [x]))
  = (List.length (filter p l) + (if p x then 1 else 0))%nat.
Proof.
  rewrite filter_app, length_app. simpl. destruct (p x); reflexivity.
Qed.

Lemma count_remove_nth {A} (p : A -> bool) (l : list A) (i : nat) (x : A) :
  nth_error l i = Some x ->
  (List.length (filter p (remove_nth i l)) + (if p x then 1 else 0))%nat
  = List.length (filter p l).
Proof.
  unfold remove_nth. revert i.
  induction l as [|a l IH]; intros [|i] H; simpl in H; try discriminate.
  - injection H as ->. simpl. destruct (p x); simpl; lia.
  - specialize (IH i H). simpl in *. destruct (p a); simpl; lia.
Qed.

Ltac break_match :=
  match goal with
  | |- context [match ?x with _ => _ end] => destruct x
  | |- context [if ?x then _ else _] => destruct x
  end.

Ltac count_tasks H :=
  unfold flags_track_handlers, panic_running, unlock_running in *;
  simpl in *;
  rewrite ?count_snoc; simpl;
  try (pose proof (count_remove_nth is_panic_task _ _ _ H);
       pose proof (count_remove_nth is_unlock_task _ _ _ H));
  simpl in *;
  repeat match goal with
         | |- context [if ?b then _ else _] => destruct b
         | _ : context [if ?b then _ else _] |- _ => destruct b
         end;
  lia.

(** Every handler keeps each processing flag in step with its handler:
    set on entry, cleared in the [finally]. *)
Lemma step_keeps_flags (st : state) (ev : event) :
  flags_track_handlers st -> flags_track_handlers (step st ev).
Proof.
  intros Hinv.
  destruct ev as [| | | | | | |m|i net|i net|i nd nl|pollInterval|pollInterval];
    unfold step.
  - count_tasks Hinv.
  - destruct (loading st); [exact Hinv | count_tasks Hinv].
  - destruct (panicProcessing st) eqn:E; [exact Hinv |].
    unfold handlePanic. rewrite E. count_tasks Hinv.
  - destruct (unlockProcessing st) eqn:E; [exact Hinv |].
    unfold handleUnlockPanic. rewrite E. count_tasks Hinv.
  - count_tasks Hinv.
  - unfold handlePanic. destruct (panicProcessing st) eqn:E;
      [exact Hinv | count_tasks Hinv].
  - unfold handleUnlockPanic. destruct (unlockProcessing st) eqn:E;
      [exact Hinv | count_tasks Hinv].
  - unfold handleToggleBlock, toggleDeviceBlock.
    destruct (truthy m); simpl; count_tasks Hinv.
  - destruct (nth_error (pending st) i) as [t|] eqn:Hn; [| exact Hinv].
    destruct t; try exact Hinv.
    + unfold handleScan_polling. break_match; count_tasks Hn.
    + unfold scanPoll_status. break_match; [break_match |]; count_tasks Hn.
    + unfold handleToggleBlock_result.
      break_match; [break_match |]; count_tasks Hn.
    + unfold handlePanic_result.
      break_match; [break_match; break_match |]; count_tasks Hn.
    + unfold handleUnlockPanic_result.
      break_match; [break_match; break_match |]; count_tasks Hn.
  - destruct (nth_error (pending st) i) as [t|] eqn:Hn; [| exact Hinv].
    destruct t; try exact Hinv.
    + unfold handleToggleBlock_logs. break_match; count_tasks Hn.
    + unfold handlePanic_logs. break_match; count_tasks Hn.
    + unfold handleUnlockPanic_logs. break_match; count_tasks Hn.
  - destruct (nth_error (pending st) i) as [t|] eqn:Hn; [| exact Hinv].
    destruct t; try exact Hinv; count_tasks Hn.
  - destruct (mem pollInterval (intervals st)); [| exact Hinv].
    count_tasks Hinv.
  - destruct (mem pollInterval (timeouts st)); [| exact Hinv].
    count_tasks Hinv.
Qed.

Lemma run_keeps_flags (evs : list event) (st : state) :
  flags_track_handlers st -> flags_track_handlers (run st evs).
Proof.
  revert st. induction evs as [|ev evs IH]; intros st H; simpl.
  - exact H.
  - apply IH. apply step_keeps_flags. exact H.
Qed.

Lemma in_flight_le_running (st : state) :
  (panic_in_flight st <= panic_running st)%nat /\
  (unlock_in_flight st <= unlock_running st)%nat.
Proof.
  unfold panic_in_flight, panic_running, unlock_in_flight, unlock_running.
  induction (pending st) as [|t l [IH1 IH2]]; simpl; [lia |].
  destruct t; simpl; lia.
Qed.

Lemma initial_flags : flags_track_handlers initial.
Proof. split; reflexivity. Qed.

Lemma running_implies_flag (st : state) :
  flags_track_handlers st ->
  ((0 < panic_in_flight st)%nat -> panicProcessing st = true) /\
  ((0 < unlock_in_flight st)%nat -> unlockProcessing st = true).
Proof.
  intros [Hp Hu]. destruct (in_flight_le_running st) as [Lp Lu].
  split; intros H.
  - destruct (panicProcessing st); [reflexivity | lia].
  - destruct (unlockProcessing st); [reflexivity | lia].
Qed.

(** C5, as stated, fails: the two bulk actions do not exclude each other.
    With an unlock request on the wire a click on Panic sends the panic
    request, and both are then outstanding. *)
Lemma panic_sent_while_unlock_in_flight :
  unlock_in_flight (run initial [ClickUnlockPanic]) = 1%nat /\
  trace (run initial [ClickUnlockPanic; ClickPanic])
  = (trace (run initial [ClickUnlockPanic]) ++ [Sent PostPanic])%list /\
  panic_in_flight (run initial [ClickUnlockPanic; ClickPanic]) = 1%nat /\
  unlock_in_flight (run initial [ClickUnlockPanic; ClickPanic]) = 1%nat.
Proof. repeat split. Qed.

(** C5, amended. Each bulk action excludes itself only. After any
    sequence of events at most one panic request and at most one unlock
    request are outstanding; while a panic request is outstanding
    [handlePanic] and the Panic button do nothing, and likewise
    [handleUnlockPanic] and the Unlock button while an unlock request is
    outstanding. *)
Theorem bulk_actions_guarded_per_kind (evs : list event) :
  let st := run initial evs in
  (panic_in_flight st <= 1)%nat /\
  (unlock_in_flight st <= 1)%nat /\
  ((0 < panic_in_flight st)%nat ->
   step st HandlePanic = st /\ step st ClickPanic = st) /\
  ((0 < unlock_in_flight st)%nat ->
   step st HandleUnlockPanic = st /\ step st ClickUnlockPanic = st).
Proof.
  intros st.
  assert (Hinv : flags_track_handlers st)
    by (apply run_keeps_flags, initial_flags).
  destruct (in_flight_le_running st) as [Lp Lu].
  destruct (running_implies_flag st Hinv) as [Fp Fu].
  destruct Hinv as [Hp Hu].
  split; [destruct (panicProcessing st); lia |].
  split; [destruct (unlockProcessing st); lia |].
  split; intros H.
  - simpl. unfold handlePanic. rewrite (Fp H). split; reflexivity.
  - simpl. unfold handleUnlockPanic. rewrite (Fu H). split; reflexivity.
Qed.

Lemma bulk_actions_guarded_during_panic :
  (0 < panic_in_flight (run initial [ClickPanic]))%nat /\
  step (run initial [ClickPanic]) HandlePanic = run initial [ClickPanic] /\
  step (run initial [ClickPanic]) ClickPanic = run initial [ClickPanic].
Proof.
  split; [change (0 < 1)%nat; lia |].
  apply (proj1 (proj2 (proj2 (bulk_actions_guarded_per_kind [ClickPanic])))).
  change (0 < 1)%nat. lia.
Defined.

End Bulk.

(** ** Display names and the report *)

Section Names.

Lemma isMeaningful_spec (v : jsval) :
  isMeaningful v = true <->
  exists s, v = VStr s /\ (1 < String.length (trim s))%nat /\
            all_digits (trim s) = false.
Proof.
  split.
  - destruct v as [| |b|n|s|items|fields]; simpl;
      try discriminate;
      try (destruct b; discriminate);
      try (unfold isMeaningful; simpl; destruct (n =? 0); discriminate).
    unfold isMeaningful. simpl.
    destruct (s =? "")%string; simpl; [discriminate |].
    destruct (String.length (trim s) <=? 1)%nat eqn:L; [discriminate |].
    destruct (all_digits (trim s)) eqn:D; [discriminate |].
    intros _. exists s. apply Nat.leb_gt in L. auto.
  - intros (s & -> & L & D). unfold isMeaningful. simpl.
    destruct (s =? "")%string eqn:E.
    + apply String.eqb_eq in E. subst s. simpl in L. lia.
    + simpl. apply Nat.leb_gt in L. rewrite L, D. reflexivity.
Qed.

(** C7. The name column of a report row is not the display name: the
    row prints the vendor when it is truthy and [name] otherwise, and
    never looks at the nickname or the hostname, while the cards and the
    inspector show [displayNameFor]. On the three derivations of the
    specification the display names are "TV", "router1" and
    "192.168.1.5", and the report rows start with "Samsung", "undefined"
    and "12345". *)
Theorem report_rows_ignore_display_name :
  (displayNameFor tv = VStr "TV" /\ row_name tv = "Samsung") /\
  (displayNameFor router = VStr "router1" /\ row_name router = "undefined") /\
  (displayNameFor nameless = VStr "192.168.1.5" /\
   row_name nameless = "12345") /\
  row tv
  = "Samsung,192.168.1.20,aa:bb:cc:00:00:01,Linux,media,10%,2,12ms,SECURE\n" /\
  (forall d label, row_name (with_nickname d label) = row_name d).
Proof. repeat split. Qed.

(** [displayNameFor], which titles the dashboard cards and the inspector,
    returns the first meaningful value among nickname, hostname and
    vendor, in that order, and the raw IP when there is none; a value is
    meaningful when it is a string that, once trimmed of white space, is
    longer than one character and not made of digits only. *)
Lemma display_name_priority (d : device) :
  displayNameFor d
  = match find isMeaningful [nickname d; hostname d; vendor d] with
    | Some v => v
    | None => ip d
    end /\
  (forall v,
      isMeaningful v = true <->
      exists s, v = VStr s /\ (1 < String.length (trim s))%nat /\
                all_digits (trim s) = false).
Proof.
  split.
  - unfold displayNameFor. simpl.
    destruct (isMeaningful (nickname d)); [reflexivity |].
    destruct (isMeaningful (hostname d)); [reflexivity |].
    destruct (isMeaningful (vendor d)); reflexivity.
  - exact isMeaningful_spec.
Qed.

(** The three derivations of the specification. *)
Example display_name_examples :
  displayNameFor tv = VStr "TV" /\
  displayNameFor router = VStr "router1" /\
  displayNameFor nameless = VStr "192.168.1.5".
Proof. repeat split. Qed.

(** Trimming comes first: a padded single letter and padded digits are not
    meaningful. *)
Example padded_values_not_meaningful :
  isMeaningful (VStr " a") = false /\ isMeaningful (VStr " 12 ") = false /\
  isMeaningful (VStr "a1") = true /\ isMeaningful VNull = false /\
  isMeaningful (VNum 42) = false.
Proof. repeat split. Qed.

End Names.

Section Summary.

Lemma append_assoc (a b c : string) : (a ++ b) ++ c = a ++ b ++ c.
Proof.
  induction a as [|ch a IH]; simpl; [reflexivity | rewrite IH; reflexivity].
Qed.

Lemma append_rows (devices : list device) (csvContent : string) :
  fold_left (fun csvContent d => csvContent ++ row d) devices csvContent
  = csvContent ++ rows_text devices.
Proof.
  revert csvContent.
  induction devices as [|d rest IH]; intros csvContent; simpl.
  - induction csvContent as [|ch s IHs]; simpl;
      [reflexivity | rewrite <- IHs; reflexivity].
  - rewrite IH. apply append_assoc.
Qed.

Lemma filter_length_count {A} (p : A -> bool) (l : list A) :
  List.length (filter p l) = count p l.
Proof.
  induction l as [|x rest IH]; simpl; [reflexivity |].
  destruct (p x); simpl; rewrite IH; reflexivity.
Qed.

Lemma blocked_flag_flagged (d : device) : blocked_flag d = flagged d.
Proof.
  unfold blocked_flag, flagged, js_or.
  destruct (truthy (isBlocked d)) eqn:E; [exact E | reflexivity].
Qed.

Lemma count_ext {A} (p q : A -> bool) (l : list A) :
  (forall x, p x = q x) -> count p l = count q l.
Proof.
  intros H. induction l as [|x rest IH]; simpl; [reflexivity |].
  rewrite H, IH. reflexivity.
Qed.

(** C8, as stated, fails when the two spellings of the flag disagree. A
    device sent with [is_blocked: true] whose unblocking is confirmed has
    [isBlocked] false in the store, and the report still counts it as
    quarantined and labels its row BLOCKED. *)
Lemma report_counts_device_after_unblock :
  map (patch_blocked (VStr (mac quarantined)) (VBool false)) [quarantined]
  = [restored] /\
  isBlocked restored = VBool false /\
  generateQCReport "now" [restored]
  = "data:text/csv;charset=utf-8,AEGIS SECURITY AUDIT REPORT\n"
    ++ "Generated At,now\n"
    ++ "Total Devices,1\nQuarantined Devices,1\nCritical Threats,0\n\n"
    ++ "DEVICE NAME,IP ADDRESS,MAC ADDRESS,OS,TYPE,RISK SCORE,OPEN PORTS,LATENCY,STATUS\n"
    ++ "Acme,192.168.1.70,aa:bb:cc:00:00:07,Unknown,unknown,10%,0,N/A,BLOCKED\n".
Proof. repeat split. Qed.

(** C8, amended. The summary block of the report gives the length of the
    device list as Total Devices, the number of devices for which
    [isBlocked] or [is_blocked] is truthy as Quarantined Devices, and the
    number of devices whose risk score exceeds 50 as Critical Threats;
    the column header and one row per device follow. Where no device
    carries a truthy [is_blocked], Quarantined Devices is the number of
    devices whose [isBlocked] is truthy. *)
Theorem report_summary_counts (timestamp : string) (devices : list device)
    (total quarantined threats : nat)
    (Htotal : List.length devices = total)
    (Hquarantined : count flagged devices = quarantined)
    (Hthreats : count critical devices = threats) :
  generateQCReport timestamp devices
  = "data:text/csv;charset=utf-8,AEGIS SECURITY AUDIT REPORT\n"
    ++ "Generated At," ++ timestamp ++ "\n"
    ++ "Total Devices," ++ dec_nat total ++ "\n"
    ++ "Quarantined Devices," ++ dec_nat quarantined ++ "\n"
    ++ "Critical Threats," ++ dec_nat threats ++ "\n\n"
    ++ "DEVICE NAME,IP ADDRESS,MAC ADDRESS,OS,TYPE,RISK SCORE,OPEN PORTS,LATENCY,STATUS\n"
    ++ rows_text devices /\
  ((forall d, In d devices -> truthy (is_blocked d) = false) ->
   quarantined = count (fun d => truthy (isBlocked d)) devices).
Proof.
  subst total quarantined threats. split.
  - unfold generateQCReport. rewrite append_rows.
    rewrite !filter_length_count.
    rewrite (count_ext blocked_flag flagged) by apply blocked_flag_flagged.
    rewrite (count_ext (fun d => risk_score d >? 50) critical)
      by (intros d; apply Z.gtb_ltb).
    rewrite !append_assoc. reflexivity.
  - intros Hone. induction devices as [|d rest IH]; simpl; [reflexivity |].
    rewrite IH by (intros d0 H0; apply Hone; right; exact H0).
    unfold flagged. rewrite (Hone d (or_introl eq_refl)), orb_false_r.
    reflexivity.
Qed.

(** Ten devices, two of them blocked, one with risk score 75. *)
Lemma report_of_ten_devices :
  List.length inventory10 = 10%nat /\
  count flagged inventory10 = 2%nat /\
  count critical inventory10 = 1%nat /\
  map risk_score (filter critical inventory10) = [75] /\
  generateQCReport "1/11/2026, 10:00:00" inventory10
  = "data:text/csv;charset=utf-8,AEGIS SECURITY AUDIT REPORT\n"
    ++ "Generated At,1/11/2026, 10:00:00\n"
    ++ "Total Devices,10\nQuarantined Devices,2\nCritical Threats,1\n\n"
    ++ "DEVICE NAME,IP ADDRESS,MAC ADDRESS,OS,TYPE,RISK SCORE,OPEN PORTS,LATENCY,STATUS\n"
    ++ rows_text inventory10.
Proof.
  split; [reflexivity |]. split; [reflexivity |]. split; [reflexivity |].
  split; [reflexivity |].
  exact (proj1 (report_summary_counts "1/11/2026, 10:00:00" inventory10
                  10 2 1 eq_refl eq_refl eq_refl)).
Defined.

End Summary.

(** ** Auto-scan polling *)

Section AutoScanPolling.

Variable JSON_stringify : list device -> string.

(** C9. The tick compares the fetched inventory with the [devices] of
    its closure and never looks at the logs. With auto-scan on and an
    unchanged inventory, a fetched log snapshot that differs from the log
    store is not applied: both stores stay as they were. *)
Theorem autoscan_tick_ignores_new_logs :
  let st := setAutoScanEnabled true loaded_state in
  let st' :=
    autoScanTick JSON_stringify (Response (Some [tv; router]))
      (Response (Some [entry2; entry1])) st in
  logs st = [entry1] /\
  logs st' = [entry1] /\
  devices st' = devices st /\
  trace st' = (trace st ++ [Sent GetDevices; Sent GetLogs])%list.
Proof.
  simpl. unfold autoScanTick. simpl. rewrite String.eqb_refl. simpl.
  repeat split.
Qed.

(** A fetched inventory that serialises differently from the closure's is
    applied, whatever the store holds, and the closure stays as it was. *)
Lemma autoScanTick_applies (st : state) (p : poller)
    (nd : reply (list device)) (nl : reply (list logentry)) :
  autoScanPoll st = Some p ->
  JSON_stringify (snapshot nd) <> JSON_stringify (closure_devices p) ->
  let st' := autoScanTick JSON_stringify nd nl st in
  devices st' = snapshot nd /\
  logs st' = snapshot nl /\
  trace st'
  = (trace st ++ [Sent GetDevices; Sent GetLogs; SetDevices; SetLogs])%list /\
  autoScanPoll st'
  = Some (mkPoller (closure_devices p) (List.length (snapshot nd))).
Proof.
  intros Hp Hne. apply String.eqb_neq in Hne.
  unfold autoScanTick. rewrite Hp.
  rewrite settled_fetchDevices, settled_fetchLogs, Hne, orb_true_r.
  simpl. rewrite <- !app_assoc. repeat split.
Qed.

(** The comparison is against the closure, not the store: once a tick has
    applied a changed inventory, every later tick that fetches the same
    inventory applies it again. *)
Lemma autoscan_tick_reapplies_same_snapshot
    (Hdistinct : JSON_stringify [tv; router; plain 10]
                 <> JSON_stringify [tv; router]) :
  forall st1 st2,
    st1 = autoScanTick JSON_stringify (Response (Some [tv; router; plain 10]))
            (Response (Some [entry1])) (setAutoScanEnabled true loaded_state) ->
    st2 = autoScanTick JSON_stringify (Response (Some [tv; router; plain 10]))
            (Response (Some [entry1])) st1 ->
    devices st1 = [tv; router; plain 10] /\
    devices st2 = devices st1 /\
    inventory_writes st1 = 2%nat /\
    inventory_writes st2 = 3%nat.
Proof.
  intros st1 st2 E1 E2.
  destruct (autoScanTick_applies (setAutoScanEnabled true loaded_state)
              (mkPoller [tv; router] 2)
              (Response (Some [tv; router; plain 10]))
              (Response (Some [entry1])) eq_refl Hdistinct)
    as (D1 & _ & T1 & P1).
  rewrite <- E1 in D1, T1, P1.
  destruct (autoScanTick_applies st1 _
              (Response (Some [tv; router; plain 10]))
              (Response (Some [entry1])) P1 Hdistinct)
    as (D2 & _ & T2 & _).
  rewrite <- E2 in D2, T2.
  unfold inventory_writes. rewrite T2, T1, D2, D1.
  repeat split.
Qed.

End AutoScanPolling.

Lemma autoscan_tick_reapplies_same_snapshot_by_length :
  by_length [tv; router; plain 10] <> by_length [tv; router] /\
  inventory_writes
    (autoScanTick by_length (Response (Some [tv; router; plain 10]))
       (Response (Some [entry1]))
       (autoScanTick by_length (Response (Some [tv; router; plain 10]))
          (Response (Some [entry1]))
          (setAutoScanEnabled true loaded_state)))
  = 3%nat.
Proof.
  assert (H : by_length [tv; router; plain 10] <> by_length [tv; router])
    by discriminate.
  split; [exact H |].
  exact (proj2 (proj2 (proj2
    (autoscan_tick_reapplies_same_snapshot by_length H _ _ eq_refl eq_refl)))).
Defined.

(* ===================================================================== *)
(** * Further properties *)
(* ===================================================================== *)

(** ** The backend boundary, all of it *)

Section Fallbacks.

(** X1. No request function turns a transport failure into a success:
    when the backend is unreachable or the body does not parse, the value
    each of them settles with fails the [status === "success"] test of
    its caller. *)
Theorem transport_failure_never_reads_as_success (net : reply jsval)
    (deviceId nickname intervalMinutes : jsval)
    (Hfail : transport_failure net) :
  (r <- settle triggerScan net ;; is_success r) = Value false /\
  (r <- settle (toggleDeviceBlock deviceId) net ;; is_success r) = Value false /\
  (r <- settle (updateDeviceNickname deviceId nickname) net ;; is_success r)
  = Value false /\
  (r <- settle triggerPanicMode net ;; is_success r) = Value false /\
  (r <- settle triggerUnlockPanicControl net ;; is_success r) = Value false /\
  (r <- answer trainAI net ;; is_success r) = Value false /\
  (r <- answer (startAutoScan intervalMinutes) net ;; is_success r)
  = Value false /\
  (r <- answer stopAutoScan net ;; is_success r) = Value false.
Proof.
  unfold toggleDeviceBlock, updateDeviceNickname.
  destruct Hfail as [-> | ->]; destruct (truthy deviceId);
    repeat split; reflexivity.
Qed.

Lemma transport_failure_never_reads_as_success_unreachable :
  transport_failure (@Unreachable jsval) /\
  (r <- settle triggerPanicMode Unreachable ;; is_success r) = Value false /\
  (r <- settle (toggleDeviceBlock tv_mac) Unreachable ;; is_success r)
  = Value false.
Proof.
  split; [left; reflexivity |].
  pose proof (transport_failure_never_reads_as_success Unreachable tv_mac
                (VStr "TV") (VNum 5) (or_introl eq_refl)) as H.
  split; [apply H | apply H].
Defined.

End Fallbacks.

(** ** Scan sessions, continued *)

Section ScanMore.

#[local] Arguments remove_nth : simpl never.

Lemma mem_snoc (n : nat) (l : list nat) : mem n (l ++ [n]) = true.
Proof.
  unfold mem. rewrite existsb_app. simpl. rewrite Nat.eqb_refl.
  rewrite orb_true_r. reflexivity.
Qed.

(** X2. A scan against an unreachable backend ends at its first poll
    and empties both stores: the failed status request reads as "not
    scanning", the session refreshes, and both failed fetches come back
    as empty snapshots that replace what the stores held. *)
Theorem scan_of_unreachable_backend_empties_stores (st : state)
    (Hidle : loading st = false) :
  let i := List.length (pending st) in
  let st' :=
    run st [ClickScan; Settled i Unreachable; Tick (next_timer st);
            Settled i Unreachable; LoadSettled i Unreachable Unreachable] in
  devices st' = [] /\ logs st' = [] /\ loading st' = false /\
  pending st' = pending st /\
  trace st'
  = (trace st ++ [Sent PostScan; Sent GetScanStatus; Sent GetDevices;
                  Sent GetLogs; SetDevices; SetLogs])%list.
Proof.
  destruct st as [ds ls ld pid pp up ae ap p ivs tos nt tr].
  simpl in Hidle. subst ld. cbn [pending next_timer].
  set (s1 := mkState ds ls true pid pp up ae ap (p ++ [ScanAwaitTrigger])
               ivs tos nt (tr ++ [Sent PostScan])).
  set (s2 := mkState ds ls true pid pp up ae ap p (ivs ++ [nt]) (tos ++ [nt])
               (S nt) (tr ++ [Sent PostScan])).
  set (s3 := mkState ds ls true pid pp up ae ap (p ++ [PollAwaitStatus nt])
               (ivs ++ [nt]) (tos ++ [nt]) (S nt)
               ((tr ++ [Sent PostScan]) ++ [Sent GetScanStatus])).
  set (s4 := mkState ds ls true pid pp up ae ap (p ++ [PollAwaitLoad])
               (remove_first nt (ivs ++ [nt])) (tos ++ [nt]) (S nt)
               (((tr ++ [Sent PostScan]) ++ [Sent GetScanStatus])
                ++ [Sent GetDevices; Sent GetLogs])).
  assert (E1 : step (mkState ds ls false pid pp up ae ap p ivs tos nt tr)
                 ClickScan = s1) by reflexivity.
  assert (E2 : step s1 (Settled (List.length p) Unreachable) = s2).
  { unfold step, s1. cbn [pending]. rewrite nth_error_snoc.
    unfold resume. cbn [pending]. rewrite remove_nth_snoc. reflexivity. }
  assert (E3 : step s2 (Tick nt) = s3).
  { unfold step, s2. cbn [intervals]. rewrite mem_snoc. reflexivity. }
  assert (E4 : step s3 (Settled (List.length p) Unreachable) = s4).
  { unfold step, s3. cbn [pending]. rewrite nth_error_snoc.
    unfold resume. cbn [pending]. rewrite remove_nth_snoc. reflexivity. }
  unfold run. cbn [fold_left]. rewrite E1, E2, E3, E4.
  unfold step, s4. cbn [pending]. rewrite nth_error_snoc.
  unfold resume. cbn [pending]. rewrite remove_nth_snoc.
  cbn. rewrite <- !app_assoc. repeat split.
Qed.

Lemma scan_of_unreachable_backend_empties_loaded_stores :
  loading loaded_state = false /\
  devices loaded_state = [tv; router] /\
  devices
    (run loaded_state
       [ClickScan; Settled 0 Unreachable; Tick 0; Settled 0 Unreachable;
        LoadSettled 0 Unreachable Unreachable]) = [] /\
  logs
    (run loaded_state
       [ClickScan; Settled 0 Unreachable; Tick 0; Settled 0 Unreachable;
        LoadSettled 0 Unreachable Unreachable]) = [].
Proof.
  split; [reflexivity |]. split; [reflexivity |].
  pose proof (scan_of_unreachable_backend_empties_stores loaded_state eq_refl)
    as H.
  destruct H as (Hd & Hl & _).
  split; [exact Hd | exact Hl].
Defined.

(** *** Timers *)

Lemma remove_first_in (n x : nat) (l : list nat) :
  In x (remove_first n l) -> In x l.
Proof.
  induction l as [|m l IH]; simpl; [tauto |].
  destruct (n =? m)%nat; simpl; tauto.
Qed.

Lemma remove_first_keeps (n x : nat) (l : list nat) :
  In x l -> x <> n -> In x (remove_first n l).
Proof.
  induction l as [|m l IH]; simpl; [tauto |].
  intros [-> | H] Hne.
  - destruct (Nat.eqb_spec n x); [congruence | left; reflexivity].
  - destruct (n =? m)%nat; [exact H | right; auto].
Qed.

Lemma remove_first_nodup (n : nat) (l : list nat) :
  NoDup l -> NoDup (remove_first n l) /\ ~ In n (remove_first n l).
Proof.
  induction l as [|m l IH]; simpl; intros H.
  - split; [constructor | tauto].
  - inversion H as [|? ? Hm Hl]; subst.
    destruct (Nat.eqb_spec n m) as [-> | Hne].
    + split; assumption.
    + destruct (IH Hl) as [IH1 IH2]. split.
      * constructor; [| exact IH1].
        intros Hin. apply Hm. eapply remove_first_in. exact Hin.
      * simpl. intros [E | Hin]; [congruence | tauto].
Qed.

Ltac keep_timers H := solve [exact H | unfold timers_consistent in *; cbn in *; exact H].

Lemma clearInterval_consistent (iv : nat) (st : state) :
  timers_consistent st -> timers_consistent (clearInterval iv st).
Proof.
  intros (N1 & N2 & Hsub & Hlt). unfold timers_consistent. cbn.
  repeat split; auto.
  - apply remove_first_nodup. exact N1.
  - intros x Hx. apply Hsub. eapply remove_first_in. exact Hx.
Qed.

Lemma step_keeps_timers (st : state) (ev : event) :
  timers_consistent st -> timers_consistent (step st ev).
Proof.
  intros Hinv.
  destruct ev as [| | | | | | |m|i net|i net|i nd nl|pollInterval|pollInterval];
    unfold step.
  - keep_timers Hinv.
  - destruct (loading st); keep_timers Hinv.
  - unfold handlePanic. destruct (panicProcessing st); keep_timers Hinv.
  - unfold handleUnlockPanic. destruct (unlockProcessing st); keep_timers Hinv.
  - keep_timers Hinv.
  - unfold handlePanic. destruct (panicProcessing st); keep_timers Hinv.
  - unfold handleUnlockPanic. destruct (unlockProcessing st); keep_timers Hinv.
  - unfold handleToggleBlock, toggleDeviceBlock.
    destruct (truthy m); keep_timers Hinv.
  - destruct (nth_error (pending st) i) as [t|] eqn:Hn; [| exact Hinv].
    destruct t as [|iv| | |m| | | | |]; try exact Hinv.
    + unfold handleScan_polling.
      destruct (settle triggerScan net); [| keep_timers Hinv].
      destruct Hinv as (N1 & N2 & Hsub & Hlt).
      unfold timers_consistent. cbn.
      assert (F : ~ In (next_timer st) (timeouts st))
        by (intros Hin; apply Hlt in Hin; lia).
      repeat split.
      * apply NoDup_app; [exact N1 | repeat constructor; simpl; tauto |].
        intros x Hx [<- | []]. apply F, Hsub, Hx.
      * apply NoDup_app; [exact N2 | repeat constructor; simpl; tauto |].
        intros x Hx [<- | []]. apply F, Hx.
      * intros x Hx. apply in_app_or in Hx. apply in_or_app.
        destruct Hx as [Hx | Hx]; [left; auto | right; exact Hx].
      * intros x Hx. apply in_app_or in Hx.
        destruct Hx as [Hx | [<- | []]]; [apply Hlt in Hx; lia | lia].
    + unfold scanPoll_status.
      destruct (status <- settle getScanStatus net ;;
                is_scanning <- prop status "is_scanning" ;;
                Value (truthy is_scanning)) as [[|]|];
        try keep_timers Hinv.
      assert (H : timers_consistent (clearInterval iv (resume i st)))
        by (apply clearInterval_consistent; keep_timers Hinv).
      keep_timers H.
    + unfold handleToggleBlock_result.
      destruct (result <- settle (toggleDeviceBlock m) net ;;
                ok <- is_success result ;;
                (if ok then v <- prop result "isBlocked" ;; Value (Some v)
                 else Value None)) as [[v|]|]; keep_timers Hinv.
    + unfold handlePanic_result.
      destruct (bulk_try _ _ _) as [[[|] msg]|]; keep_timers Hinv.
    + unfold handleUnlockPanic_result.
      destruct (bulk_try _ _ _) as [[[|] msg]|]; keep_timers Hinv.
  - destruct (nth_error (pending st) i) as [t|] eqn:Hn; [| exact Hinv].
    destruct t; try exact Hinv.
    + unfold handleToggleBlock_logs.
      destruct (settle fetchLogs net); keep_timers Hinv.
    + unfold handlePanic_logs.
      destruct (settle fetchLogs net); keep_timers Hinv.
    + unfold handleUnlockPanic_logs.
      destruct (settle fetchLogs net); keep_timers Hinv.
  - destruct (nth_error (pending st) i) as [t|] eqn:Hn; [| exact Hinv].
    destruct t; try exact Hinv; keep_timers Hinv.
  - destruct (mem pollInterval (intervals st)); keep_timers Hinv.
  - destruct (mem pollInterval (timeouts st)); [| exact Hinv].
    destruct Hinv as (N1 & N2 & Hsub & Hlt).
    destruct (remove_first_nodup pollInterval _ N1) as [M1 M1'].
    destruct (remove_first_nodup pollInterval _ N2) as [M2 M2'].
    unfold timers_consistent. cbn. repeat split; auto.
    + intros x Hx.
      destruct (Nat.eq_dec x pollInterval) as [-> | Hne]; [tauto |].
      apply remove_first_keeps; [| exact Hne].
      apply Hsub. eapply remove_first_in. exact Hx.
    + intros x Hx. apply Hlt. eapply remove_first_in. exact Hx.
Qed.

(** X3. After any sequence of events, every live poll interval still has
    the 120 s timeout that was set with it armed, so no session polls
    without a pending stop; and no timer identifier is in use twice. *)
Theorem poll_interval_never_outlives_timeout (evs : list event) :
  let st := run initial evs in
  (forall iv, In iv (intervals st) -> In iv (timeouts st)) /\
  NoDup (intervals st) /\ NoDup (timeouts st).
Proof.
  intros st.
  assert (H : timers_consistent st).
  { subst st. generalize initial, (conj (NoDup_nil nat)
      (conj (NoDup_nil nat) (conj (fun iv (H : In iv []) => H)
         (fun iv (H : In iv []) => match H return (iv < 0)%nat with end)))
      : timers_consistent initial).
    induction evs as [|ev evs IH]; intros s Hs; simpl; [exact Hs |].
    apply IH. apply step_keeps_timers. exact Hs. }
  destruct H as (N1 & N2 & Hsub & _). auto.
Qed.

End ScanMore.

(** ** The device store under patches *)

Section Patches.

(** X4. The update a confirmed toggle applies to the device store keeps
    the store's shape: position by position, a device with that mac has
    [isBlocked] equal to the confirmed value and every other field as it
    was, and a device with another mac is untouched; applying the update
    a second time changes nothing more, and for a mac that no device
    carries it changes nothing at all. *)
Theorem toggle_patch_touches_only_isBlocked (m v : jsval)
    (devices : list device) :
  let patched := map (patch_blocked m v) devices in
  toggled_store m v devices patched /\
  map (patch_blocked m v) patched = patched /\
  ((forall d, In d devices -> m <> VStr (mac d)) -> patched = devices).
Proof.
  simpl. split; [apply patch_blocked_toggles |]. split.
  - induction devices as [|d rest IH]; simpl; [reflexivity |].
    rewrite IH. f_equal.
    destruct (patch_blocked_cases m v d) as [[E ->] | [E ->]].
    + subst m. unfold patch_blocked. simpl. rewrite String.eqb_refl.
      reflexivity.
    + apply patch_blocked_other. exact E.
  - intros Hnone. induction devices as [|d rest IH]; simpl; [reflexivity |].
    rewrite IH by (intros d0 H0; apply Hnone; right; exact H0).
    rewrite patch_blocked_other by (apply Hnone; left; reflexivity).
    reflexivity.
Qed.

End Patches.

(** ** The inspector: labels *)

Section Labels.

Lemma isMeaningful_truthy (v : jsval) :
  isMeaningful v = true -> truthy v = true.
Proof.
  unfold isMeaningful. destruct (truthy v); [reflexivity | discriminate].
Qed.

Lemma isMeaningful_or_empty (v : jsval) :
  isMeaningful (js_or v (VStr "")) = isMeaningful v.
Proof.
  unfold js_or. destruct (truthy v) eqn:E; [reflexivity |].
  unfold isMeaningful at 2. rewrite E. reflexivity.
Qed.

(** X5. The Save button of the inspector changes the device store only
    on a confirmed success, and then only the [nickname] of the devices
    with the selected mac: without a selected device, with an empty mac,
    on a failure status and on a transport failure the store is exactly
    what it was and [setDevices] is not called. *)
Theorem nickname_saved_only_when_confirmed (selectedDevice : option device)
    (nicknameDraft : jsval) (net : reply jsval) (st : state) :
  let st' := clickSave selectedDevice nicknameDraft net st in
  match selectedDevice with
  | Some d =>
      if negb (mac d =? "")%string
         && match confirmed net with Some _ => true | None => false end
      then
        devices st'
        = map (patch_nickname (mac d) nicknameDraft) (devices st) /\
        trace st' = (trace st ++ [SetDevices])%list /\ logs st' = logs st
      else st' = st
  | None => st' = st
  end.
Proof.
  destruct selectedDevice as [d|]; simpl; [| reflexivity].
  unfold updateDeviceNickname. simpl.
  destruct (mac d =? "")%string; simpl; [reflexivity |].
  unfold saveNickname_result.
  destruct net as [|[result|]]; simpl; try reflexivity.
  destruct result as [| |b|n|s|items|fields]; simpl; try reflexivity.
  - destruct b; reflexivity.
  - unfold is_success. simpl. destruct (n =? 0); reflexivity.
  - unfold is_success. simpl. destruct (s =? "")%string; reflexivity.
  - unfold is_success. simpl.
    destruct (strict_eq (lookup "status" fields) (VStr "success"));
      simpl; [repeat split | reflexivity].
Qed.

Lemma js_or_empty_twice (v : jsval) :
  js_or (js_or v (VStr "")) (VStr "") = js_or v (VStr "").
Proof. unfold js_or. destruct (truthy v) eqn:E; [rewrite E |]; reflexivity. Qed.

Lemma display_name_of_labelled (d : device) (label : jsval) :
  displayNameFor (with_nickname d (js_or label (VStr "")))
  = if isMeaningful label then label
    else displayNameFor (with_nickname d VNull).
Proof.
  unfold displayNameFor. simpl. rewrite isMeaningful_or_empty.
  destruct (isMeaningful label) eqn:E; [| reflexivity].
  unfold js_or. rewrite (isMeaningful_truthy _ E). reflexivity.
Qed.

(** X6. What a saved label does to the displayed name: a meaningful
    draft becomes the display name of the device; any other draft (empty,
    one character, digits only) leaves the name to the hostname, the
    vendor or the IP, as if the device had no nickname. *)
Theorem saved_label_shows_when_meaningful (d : device) (nicknameDraft : jsval) :
  displayNameFor (patch_nickname (mac d) nicknameDraft d)
  = if isMeaningful nicknameDraft then nicknameDraft
    else displayNameFor (with_nickname d VNull).
Proof.
  unfold patch_nickname. rewrite String.eqb_refl.
  apply display_name_of_labelled.
Qed.

(** X7. Opening the inspector of a device without a nickname and saving
    without typing stores the device's [name], or else its [vendor], as
    its nickname: the draft is seeded with the first truthy of nickname,
    name and vendor, which is not the order of the display name. When
    that value is meaningful it becomes the display name, ahead of the
    hostname. *)
Theorem untouched_draft_copies_name_into_nickname (d : device)
    (Hnone : truthy (nickname d) = false) :
  nickname (patch_nickname (mac d) (openDeviceModal d) d)
  = js_or (js_or (name d) (vendor d)) (VStr "") /\
  displayNameFor (patch_nickname (mac d) (openDeviceModal d) d)
  = if isMeaningful (js_or (name d) (vendor d))
    then js_or (name d) (vendor d)
    else displayNameFor (with_nickname d VNull).
Proof.
  assert (E : openDeviceModal d = js_or (js_or (name d) (vendor d)) (VStr "")).
  { unfold openDeviceModal. unfold js_or at 3. rewrite Hnone. reflexivity. }
  unfold patch_nickname. rewrite String.eqb_refl, E, js_or_empty_twice.
  split; [reflexivity |].
  apply display_name_of_labelled.
Qed.

Lemma untouched_draft_copies_name_into_nickname_plain :
  truthy (nickname (plain 10)) = false /\
  displayNameFor (plain 10) = VStr "Acme" /\
  nickname (patch_nickname (mac (plain 10)) (openDeviceModal (plain 10))
              (plain 10)) = VStr "Acme".
Proof.
  split; [reflexivity |]. split; [reflexivity |].
  exact (proj1 (untouched_draft_copies_name_into_nickname (plain 10) eq_refl)).
Defined.

End Labels.

(** ** The report, continued *)

Section ReportMore.

Lemma row_status_cases (d : device) :
  row_status d
  = if blocked_flag d then "BLOCKED"
    else if risk_score d >? 20 then "VULNERABLE" else "SECURE".
Proof. reflexivity. Qed.

(** X8. The summary block and the rows of a report agree: Quarantined
    Devices is the number of rows labelled BLOCKED, and no device counted
    under Critical Threats has a row labelled SECURE; every row carries
    one of the three labels. *)
Theorem summary_agrees_with_row_labels (devices : list device) :
  count blocked_flag devices
  = count (fun d => (row_status d =? "BLOCKED")%string) devices /\
  (count (fun d => (50 <? risk_score d)%Z) devices
   <= count (fun d => negb (row_status d =? "SECURE")%string) devices)%nat /\
  (forall d, In d devices ->
     row_status d = "BLOCKED" \/ row_status d = "VULNERABLE" \/
     row_status d = "SECURE").
Proof.
  repeat split.
  - induction devices as [|d rest IH]; simpl; [reflexivity |].
    rewrite IH, row_status_cases.
    destruct (blocked_flag d); [reflexivity |].
    destruct (risk_score d >? 20); reflexivity.
  - induction devices as [|d rest IH]; simpl; [lia |].
    rewrite row_status_cases.
    destruct (blocked_flag d); simpl.
    + destruct (50 <? risk_score d); lia.
    + destruct (Z.ltb_spec 50 (risk_score d)) as [H | H].
      * destruct (Z.gtb_spec (risk_score d) 20) as [H' | H']; simpl; lia.
      * destruct (risk_score d >? 20); simpl; lia.
  - intros d _. rewrite row_status_cases.
    destruct (blocked_flag d); [auto |].
    destruct (risk_score d >? 20); auto.
Qed.

Lemma occurrences_app (c : ascii) (a b : string) :
  occurrences c (a ++ b) = (occurrences c a + occurrences c b)%nat.
Proof.
  induction a as [|ch a IH]; simpl; [reflexivity | rewrite IH; lia].
Qed.

(** X9. Rows are joined without quoting or escaping: a row holds eight
    separating commas plus every comma that occurs inside its fields, so
    a row splits back into the nine columns only if no field contains a
    comma. *)
Theorem row_commas_are_not_escaped (d : device) :
  occurrences comma (row d)
  = (8 + total (map (occurrences comma) (row_fields d)))%nat.
Proof.
  unfold row, row_fields.
  cbn [String.concat map total].
  rewrite !occurrences_app. cbn [occurrences Ascii.eqb comma ascii_of_nat].
  simpl. lia.
Qed.

Lemma no_LF_in_digits (d : Decimal.uint) :
  occurrences LF (NilEmpty.string_of_uint d) = 0%nat.
Proof. induction d; simpl; auto. Qed.

Lemma no_LF_in_dec (n : Z) : occurrences LF (dec n) = 0%nat.
Proof.
  unfold dec, NilZero.string_of_int, NilZero.string_of_uint.
  destruct (Z.to_int n) as [d | d]; destruct d; simpl;
    auto using no_LF_in_digits.
Qed.

Lemma occurrences_rows (devices : list device) :
  occurrences LF (rows_text devices)
  = total (map (fun d => total (map (occurrences LF) (row_fields d))) devices).
Proof.
  induction devices as [|d rest IH]; simpl; [reflexivity |].
  rewrite occurrences_app, IH. f_equal.
  unfold row, row_fields. cbn [String.concat map total].
  rewrite !occurrences_app. simpl. lia.
Qed.

(** X10. The report is a single line: the generator never writes a
    line feed. Its line ends are the two characters backslash and n, and
    the only line feeds in the text are those of the time stamp and of
    the device fields. *)
Theorem report_has_no_line_feed_of_its_own (timestamp : string)
    (devices : list device) :
  occurrences LF (generateQCReport timestamp devices)
  = (occurrences LF timestamp
     + total (map (fun d => total (map (occurrences LF) (row_fields d)))
                devices))%nat.
Proof.
  unfold generateQCReport. rewrite append_rows.
  rewrite !occurrences_app, occurrences_rows.
  unfold dec_nat. rewrite !no_LF_in_dec. simpl. lia.
Qed.

End ReportMore.

(** ** Display names, continued *)

Section NamesMore.

(** *** Trimming *)

Lemma drop_spaces_idem (l : list ascii) :
  drop_spaces (drop_spaces l) = drop_spaces l.
Proof.
  induction l as [|c l IH]; simpl; [reflexivity |].
  destruct (is_space c) eqn:E; [exact IH |]. simpl. rewrite E. reflexivity.
Qed.

Lemma drop_spaces_head (l : list ascii) :
  match drop_spaces l with
  | [] => True
  | c :: _ => is_space c = false
  end.
Proof.
  induction l as [|a l IH]; simpl; [exact I |].
  destruct (is_space a) eqn:E; [exact IH | exact E].
Qed.

Lemma drop_spaces_fixed (l : list ascii) :
  match l with [] => True | c :: _ => is_space c = false end ->
  drop_spaces l = l.
Proof. destruct l as [|c l]; simpl; [reflexivity | intros ->; reflexivity]. Qed.

Lemma trimmed_list_stable (l : list ascii) :
  let t := rev (drop_spaces (rev (drop_spaces l))) in
  drop_spaces t = t /\ drop_spaces (rev t) = rev t.
Proof.
  simpl. split.
  - (* the front: trimming the end of a list that starts with a non-space
       keeps its head, or empties it *)
    pose proof (drop_spaces_head l) as Hh.
    remember (drop_spaces l) as m eqn:Em. clear Em l.
    induction m as [|c m IH] using rev_ind; [reflexivity |].
    rewrite rev_app_distr. simpl.
    destruct (is_space c) eqn:Ec.
    + apply IH. destruct m as [|a m]; [exact I | exact Hh].
    + simpl. rewrite rev_involutive.
      apply drop_spaces_fixed. destruct m as [|a m]; [exact Ec | exact Hh].
  - rewrite rev_involutive. apply drop_spaces_idem.
Qed.

Lemma list_ascii_of_string_of_list (l : list ascii) :
  list_ascii_of_string (string_of_list_ascii l) = l.
Proof. induction l as [|c l IH]; simpl; [| rewrite IH]; reflexivity. Qed.

Lemma trim_idempotent (s : string) : trim (trim s) = trim s.
Proof.
  unfold trim. rewrite list_ascii_of_string_of_list.
  destruct (trimmed_list_stable (list_ascii_of_string s)) as [H1 H2].
  simpl in H1, H2. rewrite H1, H2, rev_involutive. reflexivity.
Qed.

(** X12. Padding does not count: a name is judged by its trimmed form,
    so a value and the same value trimmed of white space are meaningful
    or not together, and trimming twice is trimming once. *)
Theorem meaningful_ignores_padding (s : string) :
  isMeaningful (VStr s) = isMeaningful (VStr (trim s)) /\
  trim (trim s) = trim s.
Proof.
  split; [| apply trim_idempotent].
  unfold isMeaningful. simpl. rewrite trim_idempotent.
  destruct (s =? "")%string eqn:E1; destruct (trim s =? "")%string eqn:E2;
    simpl; try reflexivity.
  - apply String.eqb_eq in E1. subst s. discriminate.
  - apply String.eqb_eq in E2. rewrite E2. reflexivity.
Qed.

End NamesMore.

(** ** Bulk actions, continued *)

Section BulkMore.

#[local] Arguments remove_nth : simpl never.

Lemma alerts_emit (es : list effect) (st : state) :
  alerts (emit es st) = (alerts st + List.length (filter is_alert es))%nat.
Proof. unfold alerts. simpl. rewrite filter_app, length_app. reflexivity. Qed.

(** X13. A bulk action tells the user its outcome exactly once and never
    touches the device store: when the panic or unlock request settles,
    whatever the reply, one alert is shown and the inventory is left as
    it was; when the log fetch that follows a success settles, the log
    store is replaced by the fetched snapshot and nothing else is
    shown. *)
Theorem bulk_action_alerts_once_and_spares_inventory (st : state) (i : nat)
    (t : task) (net : reply jsval) (nl : reply (list logentry))
    (Hpending : nth_error (pending st) i = Some t) :
  match t with
  | PanicAwaitResult | UnlockAwaitResult =>
      let st' := step st (Settled i net) in
      alerts st' = S (alerts st) /\
      devices st' = devices st /\ logs st' = logs st /\
      inventory_writes st' = inventory_writes st
  | PanicAwaitLogs | UnlockAwaitLogs =>
      let st' := step st (LogsSettled i nl) in
      alerts st' = alerts st /\
      devices st' = devices st /\ logs st' = snapshot nl /\
      inventory_writes st' = inventory_writes st /\
      pending st' = remove_nth i (pending st)
  | _ => True
  end.
Proof.
  destruct t; try exact I; simpl; rewrite Hpending.
  - unfold handlePanic_result.
    destruct (bulk_try _ _ _) as [[[|] msg]|];
      unfold alerts, inventory_writes; simpl;
      rewrite ?filter_app, ?length_app; simpl; repeat split; lia.
  - destruct nl as [|[ls|]]; unfold alerts, inventory_writes; simpl;
      rewrite ?filter_app, ?length_app; simpl; repeat split; lia.
  - unfold handleUnlockPanic_result.
    destruct (bulk_try _ _ _) as [[[|] msg]|];
      unfold alerts, inventory_writes; simpl;
      rewrite ?filter_app, ?length_app; simpl; repeat split; lia.
  - destruct nl as [|[ls|]]; unfold alerts, inventory_writes; simpl;
      rewrite ?filter_app, ?length_app; simpl; repeat split; lia.
Qed.

Lemma bulk_action_alerts_once_and_spares_inventory_panic :
  nth_error (pending (run loaded_state [ClickPanic])) 0 = Some PanicAwaitResult /\
  alerts (run loaded_state [ClickPanic; Settled 0 ack]) = 1%nat /\
  devices (run loaded_state [ClickPanic; Settled 0 ack]) = [tv; router].
Proof.
  split; [reflexivity |].
  pose proof (bulk_action_alerts_once_and_spares_inventory
                (run loaded_state [ClickPanic]) 0 PanicAwaitResult ack
                Unreachable eq_refl) as H.
  destruct H as (Ha & Hd & _). split; [exact Ha | exact Hd].
Defined.

(** X14. A bulk request that fails in transport is reported as a
    failure and releases its flag: the user reads "Failed to activate
    panic mode", respectively "Failed to unlock panic mode", no request
    follows and no store is written. *)
Theorem bulk_transport_failure_is_reported (st : state) (i : nat)
    (net : reply jsval) (Hfail : transport_failure net) :
  (nth_error (pending st) i = Some PanicAwaitResult ->
   let st' := step st (Settled i net) in
   trace st' = (trace st ++ [Alert "Failed to activate panic mode"])%list /\
   panicProcessing st' = false /\
   pending st' = remove_nth i (pending st)) /\
  (nth_error (pending st) i = Some UnlockAwaitResult ->
   let st' := step st (Settled i net) in
   trace st' = (trace st ++ [Alert "Failed to unlock panic mode"])%list /\
   unlockProcessing st' = false /\
   pending st' = remove_nth i (pending st)).
Proof.
  split; intros Hp; simpl; rewrite Hp;
    destruct Hfail as [-> | ->]; repeat split.
Qed.

Lemma bulk_transport_failure_is_reported_panic :
  transport_failure (@Unreachable jsval) /\
  trace (run initial [ClickPanic; Settled 0 Unreachable])
  = [Sent PostPanic; Alert "Failed to activate panic mode"] /\
  panicProcessing (run initial [ClickPanic; Settled 0 Unreachable]) = false.
Proof.
  split; [left; reflexivity |].
  pose proof (proj1 (bulk_transport_failure_is_reported
                       (run initial [ClickPanic]) 0 Unreachable
                       (or_introl eq_refl)) eq_refl) as H.
  destruct H as (Ht & Hf & _). split; [exact Ht | exact Hf].
Defined.

End BulkMore.

(** ** Fetches and writes *)

Section Conservation.

#[local] Arguments remove_nth : simpl never.

Ltac account H :=
  unfold logs_accounted, sent_count, log_writes, log_fetches_in_flight in *;
  simpl in *;
  rewrite ?filter_app, ?length_app, ?count_snoc; simpl;
  try (pose proof (count_remove_nth awaits_logs _ _ _ H); simpl in * );
  lia.

Lemma step_accounts_logs (st : state) (ev : event) :
  logs_accounted st -> logs_accounted (step st ev).
Proof.
  intros Hinv.
  destruct ev as [| | | | | | |m|i net|i net|i nd nl|pollInterval|pollInterval];
    unfold step.
  - account Hinv.
  - destruct (loading st); [exact Hinv | account Hinv].
  - unfold handlePanic. destruct (panicProcessing st);
      [exact Hinv | account Hinv].
  - unfold handleUnlockPanic. destruct (unlockProcessing st);
      [exact Hinv | account Hinv].
  - account Hinv.
  - unfold handlePanic. destruct (panicProcessing st);
      [exact Hinv | account Hinv].
  - unfold handleUnlockPanic. destruct (unlockProcessing st);
      [exact Hinv | account Hinv].
  - unfold handleToggleBlock, toggleDeviceBlock.
    destruct (truthy m); simpl; account Hinv.
  - destruct (nth_error (pending st) i) as [t|] eqn:Hn; [| exact Hinv].
    destruct t as [|iv| | |m| | | | |]; try exact Hinv.
    + unfold handleScan_polling.
      destruct (settle triggerScan net); account Hn.
    + unfold scanPoll_status.
      destruct (status <- settle getScanStatus net ;;
                is_scanning <- prop status "is_scanning" ;;
                Value (truthy is_scanning)) as [[|]|]; account Hn.
    + unfold handleToggleBlock_result.
      destruct (result <- settle (toggleDeviceBlock m) net ;;
                ok <- is_success result ;;
                (if ok then v <- prop result "isBlocked" ;; Value (Some v)
                 else Value None)) as [[v|]|]; account Hn.
    + unfold handlePanic_result.
      destruct (bulk_try _ _ _) as [[[|] msg]|]; account Hn.
    + unfold handleUnlockPanic_result.
      destruct (bulk_try _ _ _) as [[[|] msg]|]; account Hn.
  - destruct (nth_error (pending st) i) as [t|] eqn:Hn; [| exact Hinv].
    destruct t as [|iv| | |m| | | | |]; try exact Hinv;
      destruct net as [|[ls|]]; account Hn.
  - destruct (nth_error (pending st) i) as [t|] eqn:Hn; [| exact Hinv].
    destruct t as [|iv| | |m| | | | |]; try exact Hinv; account Hn.
  - destruct (mem pollInterval (intervals st)); [| exact Hinv].
    account Hinv.
  - destruct (mem pollInterval (timeouts st)); [| exact Hinv].
    account Hinv.
Qed.

(** X15. Every log fetch of the handlers ends in exactly one write of
    the log store, and the log store is written by nothing else: after
    any sequence of events the log fetches sent equal the writes of the
    log store plus the fetches still in flight. *)
Theorem every_log_fetch_is_written_once (evs : list event) :
  let st := run initial evs in
  sent_count GetLogs st = (log_writes st + log_fetches_in_flight st)%nat.
Proof.
  intros st. subst st.
  change (logs_accounted (run initial evs)).
  assert (H0 : logs_accounted initial) by reflexivity.
  revert H0. generalize initial.
  induction evs as [|ev evs IH]; intros s Hs; simpl; [exact Hs |].
  apply IH, step_accounts_logs, Hs.
Qed.

End Conservation.

(** ** The auto-scan switch *)

Section Switch.

(** X16. The auto-scan switch moves only on a confirmed success. On a
    reply with status "success" the flag is set to the opposite of what
    the handler saw when it was clicked; the polling effect follows the
    flag only when the flag really changes: turned off, the effect is
    torn down and both stores are refreshed at once; turned on, it starts
    on the inventory of that moment and the 2 s refresh timer is set; if
    the flag already has the new value, the effect and its closure stay
    as they are. On any other reply the flag, the polling effect and the
    stores stay as they were, no request follows and at most one alert is
    shown. *)
Theorem autoscan_switch_moves_only_on_success (st : state)
    (wasEnabled : bool) (autoScanInterval : jsval) (net : reply jsval) :
  let r :=
    answer (if wasEnabled then stopAutoScan
            else startAutoScan autoScanInterval) net in
  let st' := fst (handleToggleAutoScan_result wasEnabled r st) in
  let timer := snd (handleToggleAutoScan_result wasEnabled r st) in
  match confirmed net with
  | Some _ =>
      autoScanEnabled st' = negb wasEnabled /\
      autoScanPoll st'
      = (if Bool.eqb (autoScanEnabled st) (negb wasEnabled)
         then autoScanPoll st
         else if wasEnabled then None
              else Some (mkPoller (devices st) (List.length (devices st)))) /\
      timer = negb wasEnabled /\
      trace st'
      = (if wasEnabled then trace st ++ [Sent GetDevices; Sent GetLogs]
         else trace st)%list /\
      devices st' = devices st /\ logs st' = logs st
  | None =>
      autoScanEnabled st' = autoScanEnabled st /\
      autoScanPoll st' = autoScanPoll st /\
      devices st' = devices st /\ logs st' = logs st /\
      pending st' = pending st /\ timer = false /\
      (alerts st' <= S (alerts st))%nat
  end.
Proof.
  assert (Hans : forall c : ask jsval,
             (c = stopAutoScan \/ c = startAutoScan autoScanInterval) ->
             answer c net
             = Value match net with
                     | Response (Some v) => v
                     | _ => VObj [("status", VStr "error")]
                     end).
  { intros c [-> | ->]; destruct net as [|[v|]]; reflexivity. }
  cbv zeta.
  destruct wasEnabled.
  - rewrite (Hans _ (or_introl eq_refl)).
    unfold handleToggleAutoScan_result.
    destruct net as [|[v|]]; simpl.
    + unfold alerts. simpl. rewrite filter_app, length_app. simpl.
      repeat split; lia.
    + destruct v as [| |b|n|s|items|fields]; simpl;
        try (unfold alerts; simpl; rewrite ?filter_app, ?length_app; simpl;
             repeat split; lia).
      destruct (strict_eq (lookup "status" fields) (VStr "success")); simpl.
      * unfold setAutoScanEnabled.
        destruct (autoScanEnabled st) eqn:En; simpl; rewrite ?En;
          repeat split.
      * unfold alerts. simpl. rewrite filter_app, length_app. simpl.
        repeat split; lia.
    + unfold alerts. simpl. rewrite filter_app, length_app. simpl.
      repeat split; lia.
  - rewrite (Hans _ (or_intror eq_refl)).
    unfold handleToggleAutoScan_result.
    destruct net as [|[v|]]; simpl.
    + unfold alerts. simpl. rewrite filter_app, length_app. simpl.
      repeat split; lia.
    + destruct v as [| |b|n|s|items|fields]; simpl;
        try (unfold alerts; simpl; rewrite ?filter_app, ?length_app; simpl;
             repeat split; lia).
      destruct (strict_eq (lookup "status" fields) (VStr "success")); simpl.
      * unfold setAutoScanEnabled.
        destruct (autoScanEnabled st) eqn:En; simpl; rewrite ?En;
          repeat split.
      * unfold alerts. simpl. rewrite filter_app, length_app. simpl.
        repeat split; lia.
    + unfold alerts. simpl. rewrite filter_app, length_app. simpl.
      repeat split; lia.
Qed.

End Switch.

(** ** The chat window *)

Section Chat.

Lemma chat_result_in_step (r : outcome jsval) (st : Chatbot.state) :
  Chatbot.crashed st = false ->
  Chatbot.awaiting st = [] ->
  Chatbot.by_role "user" st = List.length (Chatbot.sent st) ->
  Chatbot.by_role "bot" st = Chatbot.by_role "user" st ->
  (forall req, In req (Chatbot.sent st) ->
     exists s, req = PostChat (VStr s) /\ s <> "" /\ trim s = s) ->
  conversation_in_step (Chatbot.handleSend_result r st).
Proof.
  unfold conversation_in_step, Chatbot.by_role.
  intros Ec Ea Huser Hbot Hsent.
  unfold Chatbot.handleSend_result.
  destruct r as [result|e]; [destruct (prop result "reply") as [reply|e] |];
    cbn [Chatbot.input Chatbot.messages Chatbot.loading Chatbot.awaiting
         Chatbot.sent Chatbot.crashed];
    rewrite ?filter_app, ?length_app, ?Ec, ?Ea; cbn [List.length];
    simpl;
    (split; [reflexivity |]; split; [lia |]; split; [lia | exact Hsent]).
Qed.

Lemma chat_step_in_step (st : Chatbot.state) (ev : Chatbot.event) :
  conversation_in_step st -> conversation_in_step (Chatbot.step st ev).
Proof.
  intros Hst.
  unfold Chatbot.step.
  destruct (Chatbot.crashed st) eqn:Ec; [exact Hst |].
  destruct ev as [text| |net].
  - unfold conversation_in_step, Chatbot.by_role in *. simpl.
    rewrite Ec in Hst. exact Hst.
  - unfold Chatbot.handleSend.
    destruct (negb (truthy (VStr (trim (Chatbot.input st))))
              || Chatbot.loading st) eqn:Eguard; [exact Hst |].
    apply Bool.orb_false_elim in Eguard. destruct Eguard as [Eblank El].
    unfold conversation_in_step, Chatbot.by_role in *.
    rewrite Ec, El in Hst.
    destruct Hst as (Hflight & Huser & Hbot & Hsent).
    cbn [Chatbot.input Chatbot.messages Chatbot.loading Chatbot.awaiting
         Chatbot.sent Chatbot.crashed].
    rewrite !filter_app, !length_app, Ec.
    destruct (Chatbot.awaiting st); [| discriminate].
    simpl in *.
    split; [reflexivity |]. split; [lia |]. split; [lia |].
    intros req Hin. apply in_app_or in Hin. destruct Hin as [Hin | [<- | []]].
    + apply Hsent. exact Hin.
    + exists (trim (Chatbot.input st)). repeat split.
      * intros Hempty. rewrite Hempty in Eblank. discriminate Eblank.
      * apply trim_idempotent.
  - destruct (Chatbot.awaiting st) as [|userMessage rest] eqn:Ea;
      [exact Hst |].
    unfold conversation_in_step, Chatbot.by_role in Hst.
    rewrite Ea, Ec in Hst.
    destruct Hst as (Hflight & Huser & Hbot & Hsent).
    destruct (Chatbot.loading st); simpl in Hflight; [| discriminate].
    destruct rest; [| discriminate].
    apply chat_result_in_step; unfold Chatbot.by_role; simpl;
      try assumption; try reflexivity.
    simpl in Hbot. lia.
Qed.

(** X17. The chat window keeps its conversation in step whatever the
    user and the network do: at most one question is in flight, every
    user message shown was sent as one request, no blank or padded
    question was ever sent, and every settled request added exactly one
    bot message after the greeting, except the one whose reply made the
    render throw, after which the window is gone. *)
Theorem chat_conversation_stays_in_step (evs : list Chatbot.event) :
  let st := Chatbot.run Chatbot.initial evs in
  List.length (Chatbot.awaiting st)
  = (if Chatbot.loading st then 1 else 0)%nat /\
  Chatbot.by_role "user" st = List.length (Chatbot.sent st) /\
  (Chatbot.by_role "bot" st + List.length (Chatbot.awaiting st)
   + (if Chatbot.crashed st then 1 else 0))%nat
  = S (Chatbot.by_role "user" st) /\
  (forall req, In req (Chatbot.sent st) ->
     exists s, req = PostChat (VStr s) /\ s <> "" /\ trim s = s).
Proof.
  intros st. subst st.
  change (conversation_in_step (Chatbot.run Chatbot.initial evs)).
  assert (H0 : conversation_in_step Chatbot.initial).
  { repeat split. intros req []. }
  revert H0. generalize Chatbot.initial.
  induction evs as [|ev evs IH]; intros s Hs; simpl; [exact Hs |].
  apply IH, chat_step_in_step, Hs.
Qed.



(** The same conversation, step by step: a [null] body leaves the
    question unanswered and the window dead, so a later question is not
    sent; an object without [reply] shows an [undefined] bot message. *)
Example chat_null_body_kills_the_window :
  let asked := [Chatbot.Type_ " hello "; Chatbot.Submit] in
  let dead :=
    Chatbot.run Chatbot.initial
      (asked ++ [Chatbot.Reply (Response (Some VNull));
                 Chatbot.Type_ "again"; Chatbot.Submit])%list in
  let alive :=
    Chatbot.run Chatbot.initial
      (asked ++ [Chatbot.Reply (Response (Some (VObj [("detail", VStr "Not Found")])));
                 Chatbot.Type_ "again"; Chatbot.Submit])%list in
  map Chatbot.role (Chatbot.messages dead) = ["bot"; "user"] /\
  Chatbot.sent dead = [PostChat (VStr "hello")] /\
  Chatbot.crashed dead = true /\
  map Chatbot.content (Chatbot.messages alive)
  = [VStr "Hello! I'm Aegis AI. I can help you with your network security. Try asking 'How many devices are connected?'";
     VStr "hello"; VUndefined; VStr "again"] /\
  Chatbot.sent alive = [PostChat (VStr "hello"); PostChat (VStr "again")] /\
  Chatbot.crashed alive = false.
Proof.
  vm_compute. split; [reflexivity |]. split; [reflexivity |].
  split; [reflexivity |]. split; [reflexivity |]. split; reflexivity.
Qed.

End Chat.
